(** * Frame-extraction scheduler, job runner and QA sampler

    A shallow embedding of
    [skills/video-frame-extractor/scripts/extract_video_frames.py].

    Python's [float] is IEEE-754 binary64, which is what Rocq's primitive
    [float] is: [build_timestamps] is modelled on it, rounding included. *)

From Stdlib Require Import Strings.String Strings.Ascii.
From Stdlib Require Import ZArith List Bool Lia.
From Stdlib Require Import Floats DecimalString.
From Stdlib Require Import Sorting.Sorted Sorting.Permutation.
From Stdlib Require Import Structures.OrderedTypeEx.
Import ListNotations.

Set Implicit Arguments.

Local Open Scope float_scope.

(** ** Python runtime: exceptions *)

(** The exception classes the script raises or catches by name.  Every one
    of them is an [Exception], which is what the script's handlers catch;
    [str exc] is the message. *)
Inductive exn : Type :=
| RuntimeError (msg : string)
| ValueError (msg : string)
| OSError (msg : string).

Definition str_exn (e : exn) : string :=
  match e with
  | RuntimeError m | ValueError m | OSError m => m
  end.

(** ** Python runtime: a [set] of floats and [sorted] *)

Module PySet.

(** A set is kept as the list of its members without repetition.  Python
    decides membership with [==], i.e. the IEEE equality [=?]. *)
Definition mem (x : float) (s : list float) : bool :=
  existsb (fun y => y =? x) s.

(** [s.add(x)] *)
Definition add (x : float) (s : list float) : list float :=
  if mem x s then s else s ++ [x].

(** [sorted] runs on the comparison [<] alone and is stable; on values
    that [<] orders totally, every such sort returns the list below. *)
Fixpoint insert (x : float) (l : list float) : list float :=
  match l with
  | [] => [x]
  | y :: l' => if x <? y then x :: l else y :: insert x l'
  end.

Definition sorted (s : list float) : list float :=
  fold_right insert [] s.

End PySet.

(** ** [build_timestamps] *)

(** The [while cursor < duration_seconds] loop.  Binary64 addition can
    absorb the interval, so the loop has no measure that decreases: it is
    run on [fuel], and [None] says that the fuel ran out. *)
Fixpoint build_timestamps_loop (fuel : nat) (duration_seconds interval_seconds : float)
         (timestamps : list float) (cursor : float) : option (list float) :=
  if cursor <? duration_seconds then
    match fuel with
    | O => None
    | S fuel' =>
        build_timestamps_loop fuel' duration_seconds interval_seconds
                              (PySet.add cursor timestamps)
                              (cursor + interval_seconds)
    end
  else Some timestamps.

Definition build_timestamps (fuel : nat) (duration_seconds interval_seconds : float)
  : option (exn + list float) :=
  if interval_seconds <=? 0 then
    Some (inl (ValueError "time_interval must be greater than 0"))
  else if duration_seconds <=? 0 then
    Some (inr [0])
  else
    match build_timestamps_loop fuel duration_seconds interval_seconds
                                [0] interval_seconds with
    | None => None
    | Some timestamps => Some (inr (PySet.sorted timestamps))
    end.

(** ** Python runtime: strings and number formatting *)

Module PyStr.
Local Open Scope string_scope.

(** A string is the sequence of its code points, which are below 256.

    [str.isspace] there: tab to carriage return, the four separators
    28..31, the space, the next-line control U+0085 and the no-break
    space U+00A0. *)
Definition isspace (c : ascii) : bool :=
  let n := N_of_ascii c in
  ((9 <=? n) && (n <=? 13) || (28 <=? n) && (n <=? 32)
   || (n =? 133) || (n =? 160))%N.

Fixpoint lstrip (s : string) : string :=
  match s with
  | String c s' => if isspace c then lstrip s' else s
  | EmptyString => EmptyString
  end.

Fixpoint rstrip (s : string) : string :=
  match s with
  | String c s' =>
      match rstrip s' with
      | EmptyString => if isspace c then EmptyString else String c EmptyString
      | t => String c t
      end
  | EmptyString => EmptyString
  end.

(** [s.strip()] *)
Definition strip (s : string) : string := rstrip (lstrip s).

(** [s or default] *)
Definition or_else (s default : string) : string :=
  match s with EmptyString => default | _ => s end.

(** [s.lower()]: the capitals A..Z and, above the ASCII range, U+00C0 to
    U+00DE without the multiplication sign U+00D7. *)
Definition lower_ascii (c : ascii) : ascii :=
  let n := N_of_ascii c in
  if ((65 <=? n) && (n <=? 90)
      || (192 <=? n) && (n <=? 222) && negb (n =? 215))%N
  then ascii_of_N (n + 32) else c.

Fixpoint lower (s : string) : string :=
  match s with
  | String c s' => String (lower_ascii c) (lower s')
  | EmptyString => EmptyString
  end.

(** [s.replace(".", "p")] *)
Fixpoint replace_dot_p (s : string) : string :=
  match s with
  | String c s' =>
      String (if Ascii.eqb c "."%char then "p"%char else c) (replace_dot_p s')
  | EmptyString => EmptyString
  end.

(** [str(n)] for an [int]. *)
Definition str_int (n : Z) : string := NilZero.string_of_int (Z.to_int n).

Fixpoint zeros (n : nat) : string :=
  match n with O => "" | S n' => "0" ++ zeros n' end.

(** [s.zfill(width)] for a string of digits. *)
Definition zfill (width : nat) (s : string) : string :=
  zeros (width - String.length s) ++ s.

(** [f"{n:06d}"]: the sign counts in the width. *)
Definition format_06d (n : Z) : string :=
  if (n <? 0)%Z then "-" ++ zfill 5 (str_int (- n)) else zfill 6 (str_int n).

(** The integer nearest to [n / d], ties to the even one ([d > 0]). *)
Definition div_half_even (n d : Z) : Z :=
  let q := (n / d)%Z in
  match (2 * (n mod d) ?= d)%Z with
  | Lt => q
  | Gt => (q + 1)%Z
  | Eq => if Z.even q then q else (q + 1)%Z
  end.

(** The thousandths in [m * 2^e], correctly rounded. *)
Definition thousandths (m : positive) (e : Z) : Z :=
  if (0 <=? e)%Z then (Zpos m * 2 ^ e * 1000)%Z
  else div_half_even (Zpos m * 1000) (2 ^ (- e)).

(** [f"{x:.3f}"]: the decimal expansion of the binary value of [x],
    correctly rounded to three places. *)
Definition format_3f (x : float) : string :=
  match Prim2SF x with
  | S754_nan => "nan"
  | S754_infinity s => if s then "-inf" else "inf"
  | S754_zero s => if s then "-0.000" else "0.000"
  | S754_finite s m e =>
      let n := thousandths m e in
      (if s then "-" else "") ++ str_int (n / 1000) ++ "." ++
      zfill 3 (str_int (n mod 1000))
  end.

(** [sorted] on strings, which [<] orders totally: the stable insertion
    of each member, as for floats. *)
Fixpoint insert (x : string) (l : list string) : list string :=
  match l with
  | [] => [x]
  | y :: l' => if String.ltb x y then x :: l else y :: insert x l'
  end.

Definition sorted (l : list string) : list string := fold_right insert [] l.

(** [not s] *)
Definition is_empty (s : string) : bool :=
  match s with EmptyString => true | _ => false end.

End PyStr.

(** ** Python runtime: [pathlib] paths

    A path is its string; the operations below are the POSIX ones on paths
    without a trailing slash. *)

Module PyPath.
Local Open Scope string_scope.

Definition Path : Type := string.

(** The text before and after the last occurrence of [sep]. *)
Fixpoint rsplit (sep : ascii) (s : string) : option (string * string) :=
  match s with
  | EmptyString => None
  | String c s' =>
      match rsplit sep s' with
      | Some (before, after) => Some (String c before, after)
      | None => if Ascii.eqb c sep then Some (EmptyString, s') else None
      end
  end.

(** [p / name], for a [name] without a slash: an empty name and the
    name ["."] add nothing, the current directory ["."] is dropped, and
    the separator is not doubled after the root. *)
Definition div (p : Path) (name : string) : Path :=
  if String.eqb name "" || String.eqb name "." then p
  else if String.eqb p "." then name
  else if String.eqb p "/" then "/" ++ name
  else p ++ "/" ++ name.

(** [p.name] *)
Definition name (p : Path) : string :=
  match rsplit "/" p with Some (_, n) => n | None => p end.

(** [p.parent] *)
Definition parent (p : Path) : Path :=
  match rsplit "/" p with
  | Some (EmptyString, _) => "/"
  | Some (d, _) => d
  | None => "."
  end.

(** [p.stem]: the name without its last suffix; a leading or a trailing
    dot starts no suffix. *)
Definition stem (p : Path) : string :=
  match rsplit "." (name p) with
  | Some (EmptyString, _) | Some (_, EmptyString) | None => name p
  | Some (base, _) => base
  end.

End PyPath.

(** ** [output_frame_name] *)

Definition output_frame_name (index : Z) (timestamp : float) : string :=
  let ts := PyStr.replace_dot_p (PyStr.format_3f timestamp) in
  ("frame_" ++ PyStr.format_06d index ++ "_t" ++ ts ++ ".jpg")%string.


(** ** The host: operating system and Python runtime

    What the script reaches outside itself for.  The collaborator
    ([ffmpeg], [ffprobe]) is behind [subprocess_run]; the file system is
    behind [mkdir], [path_exists], [st_size] and [glob_jpg]; the remaining
    fields are Python built-ins whose text conventions are not the
    script's concern. *)

Record CompletedProcess : Type := {
  returncode : Z;
  stdout : string;
  stderr : string
}.

Record Host : Type := {
  World : Type;
  (** [subprocess.run(command, capture_output=True, text=True, check=False)] *)
  subprocess_run : list string -> World -> (exn + CompletedProcess) * World;
  (** [p.mkdir(parents=True, exist_ok=True)] *)
  mkdir : PyPath.Path -> World -> (exn + unit) * World;
  (** [p.exists()] *)
  path_exists : PyPath.Path -> World -> bool;
  (** [p.stat().st_size] *)
  st_size : PyPath.Path -> World -> exn + Z;
  (** [p.glob("*.jpg")], in the order the directory yields *)
  glob_jpg : PyPath.Path -> World -> list PyPath.Path;
  (** [float(s)]; [None] stands for its [ValueError] *)
  float_of_str : string -> option float;
  (** [int(s)]; [None] stands for its [ValueError] *)
  int_of_str : string -> option Z;
  (** [str(x)] for a float *)
  str_float : float -> string;
  (** [str(l)] for a list of strings *)
  str_list : list string -> string;
  (** [s.splitlines()] *)
  splitlines : string -> list string;
  (** [random.Random]: the generator, seeding, and the choice that
      [sample] makes of [k] members of a population ([k] within range) *)
  Rng : Type;
  Random : Z -> Rng;
  choose : Rng -> list PyPath.Path -> nat -> list PyPath.Path * Rng
}.

(** What the script did to the outside, in order. *)
Inductive event : Type :=
| Run (command : list string)
| Mkdir (p : PyPath.Path)
| Sample (population : list PyPath.Path) (k : Z) (chosen : list PyPath.Path).

(** How a call ends: with a value, with an exception, or not within the
    fuel given to [build_timestamps]. *)
Inductive outcome (A : Type) : Type :=
| Returned (a : A)
| Raised (e : exn)
| OutOfFuel.

Arguments Returned {A} a.
Arguments Raised {A} e.
Arguments OutOfFuel {A}.

(** ** [VideoResult] *)

Record VideoResult : Type := Build_VideoResult {
  video_path : PyPath.Path;
  output_dir : PyPath.Path;
  requested_frames : Z;
  written_frames : Z;
  errors : list string
}.

Section Script.

Variable host : Host.

Record Sys : Type := {
  world : World host;
  log : list event
}.

Definition M (A : Type) : Type := Sys -> outcome A * Sys.

Definition ret {A : Type} (a : A) : M A := fun s => (Returned a, s).

Definition raise {A : Type} (e : exn) : M A := fun s => (Raised e, s).

Definition bind {A B : Type} (c : M A) (k : A -> M B) : M B :=
  fun s =>
    match c s with
    | (Returned a, s') => k a s'
    | (Raised e, s') => (Raised e, s')
    | (OutOfFuel, s') => (OutOfFuel, s')
    end.

(** [try: c  except Exception as exc: ...], the exception made a value. *)
Definition attempt {A : Type} (c : M A) : M (exn + A) :=
  fun s =>
    match c s with
    | (Returned a, s') => (Returned (inr a), s')
    | (Raised e, s') => (Returned (inl e), s')
    | (OutOfFuel, s') => (OutOfFuel, s')
    end.

Definition emit (ev : event) (s : Sys) : Sys :=
  {| world := world s; log := log s ++ [ev] |}.

Local Notation "x <- c ;; k" := (bind c (fun x => k))
  (at level 61, c at next level, right associativity).
Local Notation "' p <- c ;; k" := (bind c (fun x => let 'p := x in k))
  (at level 61, p pattern, c at next level, right associativity).

Local Open Scope string_scope.
Local Open Scope Z_scope.

(** *** [run_command] *)
Definition run_command (command : list string) : M CompletedProcess :=
  fun s =>
    let (r, w) := subprocess_run host command (world s) in
    let s' := {| world := w; log := (log s ++ [Run command])%list |} in
    match r with
    | inl e => (Raised e, s')
    | inr result => (Returned result, s')
    end.

(** *** [probe_duration_seconds] *)
Definition probe_duration_command (video_path : PyPath.Path) : list string :=
  ["ffprobe"; "-v"; "error"; "-show_entries"; "format=duration"; "-of";
   "default=noprint_wrappers=1:nokey=1"; video_path].

Definition probe_duration_seconds (video_path : PyPath.Path) : M float :=
  result <- run_command (probe_duration_command video_path) ;;
  if negb (returncode result =? 0) then
    raise (RuntimeError (PyStr.or_else (PyStr.strip (stderr result))
                           "ffprobe failed while probing duration"))
  else
    let value := PyStr.strip (stdout result) in
    match float_of_str host value with
    | None => raise (RuntimeError ("Unexpected ffprobe duration output: " ++ value))
    | Some duration =>
        if negb (is_finite duration) || (duration <? 0)%float then
          raise (RuntimeError ("Invalid duration detected: " ++
                               str_float host duration))
        else ret duration
    end.

(** *** [extract_one_frame] *)
Definition extract_one_frame_command (video_path : PyPath.Path)
           (timestamp : float) (output_path : PyPath.Path) : list string :=
  ["ffmpeg"; "-hide_banner"; "-loglevel"; "error"; "-y"; "-ss";
   PyStr.format_3f timestamp; "-i"; video_path; "-frames:v"; "1"; "-q:v"; "2";
   output_path].

Definition extract_one_frame (video_path : PyPath.Path) (timestamp : float)
           (output_path : PyPath.Path) : M unit :=
  result <- run_command (extract_one_frame_command video_path timestamp output_path) ;;
  if negb (returncode result =? 0) then
    raise (RuntimeError (PyStr.or_else (PyStr.strip (stderr result))
                           "ffmpeg frame extraction failed"))
  else ret tt.

(** *** [extract_last_frame] *)
Definition extract_last_frame_command (video_path output_path : PyPath.Path)
  : list string :=
  ["ffmpeg"; "-hide_banner"; "-loglevel"; "error"; "-y"; "-sseof"; "-3";
   "-i"; video_path; "-frames:v"; "1"; "-q:v"; "2"; "-update"; "1";
   output_path].

Definition extract_last_frame (video_path output_path : PyPath.Path) : M unit :=
  result <- run_command (extract_last_frame_command video_path output_path) ;;
  if negb (returncode result =? 0) then
    raise (RuntimeError (PyStr.or_else (PyStr.strip (stderr result))
                           "ffmpeg last-frame extraction failed"))
  else ret tt.

(** *** [convert_video] *)

(** [output_dir.mkdir(parents=True, exist_ok=True)] *)
Definition make_dir (p : PyPath.Path) : M unit :=
  fun s =>
    let (r, w) := mkdir host p (world s) in
    let s' := {| world := w; log := (log s ++ [Mkdir p])%list |} in
    match r with
    | inl e => (Raised e, s')
    | inr _ => (Returned tt, s')
    end.

(** [p.exists() and p.stat().st_size > 0] *)
Definition exists_nonempty (p : PyPath.Path) : M bool :=
  fun s =>
    if path_exists host p (world s) then
      match st_size host p (world s) with
      | inl e => (Raised e, s)
      | inr size => (Returned (0 <? size), s)
      end
    else (Returned false, s).

Definition run_build_timestamps (fuel : nat) (duration_seconds interval_seconds : float)
  : M (list float) :=
  fun s =>
    match build_timestamps fuel duration_seconds interval_seconds with
    | None => (OutOfFuel, s)
    | Some (inl e) => (Raised e, s)
    | Some (inr timestamps) => (Returned timestamps, s)
    end.

(** The body of a [try] around one render, then the update of [written]
    and [errors] that its three ways out make. *)
Definition render_checked (render : M unit) (frame_path : PyPath.Path)
           (written : Z) (errors : list string) : M (Z * list string) :=
  r <- attempt (_ <- render ;; exists_nonempty frame_path) ;;
  match r with
  | inr true => ret (written + 1, errors)
  | inr false =>
      ret (written, (errors ++ [("Empty frame output: " ++ frame_path)%string])%list)
  | inl exc =>
      ret (written,
           (errors ++ [(PyPath.name frame_path ++ ": " ++ str_exn exc)%string])%list)
  end.

(** [for index, timestamp in enumerate(timestamps, start=1): ...] *)
Fixpoint render_timestamps (video_path output_dir : PyPath.Path) (index : Z)
         (timestamps : list float) (written : Z) (errors : list string)
  : M (Z * list string) :=
  match timestamps with
  | [] => ret (written, errors)
  | timestamp :: timestamps' =>
      let frame_path := PyPath.div output_dir (output_frame_name index timestamp) in
      '(written, errors) <-
        render_checked (extract_one_frame video_path timestamp frame_path)
                       frame_path written errors ;;
      render_timestamps video_path output_dir (index + 1) timestamps' written errors
  end.

(** [(output_root / video_path.stem) if output_root is not None
     else (video_path.parent / video_path.stem)] *)
Definition video_output_dir (video_path : PyPath.Path)
           (output_root : option PyPath.Path) : PyPath.Path :=
  match output_root with
  | Some root => PyPath.div root (PyPath.stem video_path)
  | None => PyPath.div (PyPath.parent video_path) (PyPath.stem video_path)
  end.

Definition convert_video (fuel : nat) (video_path : PyPath.Path)
           (interval_seconds : float) (output_root : option PyPath.Path)
  : M VideoResult :=
  let output_dir := video_output_dir video_path output_root in
  _ <- make_dir output_dir ;;
  r <- attempt (duration <- probe_duration_seconds video_path ;;
                timestamps <- run_build_timestamps fuel duration interval_seconds ;;
                ret (duration, timestamps)) ;;
  match r with
  | inl exc => ret (Build_VideoResult video_path output_dir 0 0 [str_exn exc])
  | inr (duration, timestamps) =>
      '(written, errors) <-
        render_timestamps video_path output_dir 1 timestamps 0 [] ;;
      let last_frame_path :=
        PyPath.div output_dir
          (output_frame_name (Z.of_nat (length timestamps) + 1) duration) in
      '(written, errors) <-
        render_checked (extract_last_frame video_path last_frame_path)
                       last_frame_path written errors ;;
      ret (Build_VideoResult video_path output_dir
             (Z.of_nat (length timestamps) + 1) written errors)
  end.

(** *** [validate_jpg] *)
Definition validate_jpg_command (image_path : PyPath.Path) : list string :=
  ["ffprobe"; "-v"; "error"; "-select_streams"; "v:0"; "-show_entries";
   "stream=codec_name,width,height"; "-of";
   "default=noprint_wrappers=1:nokey=1"; image_path].

Definition validate_jpg (image_path : PyPath.Path) : M (bool * string) :=
  result <- run_command (validate_jpg_command image_path) ;;
  if negb (returncode result =? 0) then
    ret (false, PyStr.or_else (PyStr.strip (stderr result)) "ffprobe failed on image")
  else
    let lines :=
      map PyStr.strip
          (filter (fun line => negb (PyStr.is_empty (PyStr.strip line)))
                  (splitlines host (stdout result))) in
    match lines with
    | codec_line :: width_line :: height_line :: _ =>
        let codec := PyStr.lower codec_line in
        match int_of_str host width_line, int_of_str host height_line with
        | Some width, Some height =>
            if negb (String.eqb codec "mjpeg" || String.eqb codec "jpeg") then
              ret (false, "Unexpected codec " ++ codec)
            else if (width <=? 0) || (height <=? 0) then
              ret (false, "Invalid dimensions " ++ PyStr.str_int width ++ "x" ++
                          PyStr.str_int height)
            else
              ret (true, PyStr.str_int width ++ "x" ++ PyStr.str_int height ++
                         ", codec=" ++ codec)
        | _, _ =>
            ret (false, "Non-integer dimensions from ffprobe: " ++
                        str_list host [width_line; height_line])
        end
    | _ => ret (false, "Unexpected ffprobe output: " ++ str_list host lines)
    end.

(** *** [run_quality_sampling] *)

(** [rng.sample(population, k=k)]: a [ValueError] unless
    [0 <= k <= len(population)]; the event keeps what was chosen. *)
Definition rng_sample (rng : Rng host) (population : list PyPath.Path) (k : Z)
  : M (list PyPath.Path * Rng host) :=
  fun s =>
    if (k <? 0) || (Z.of_nat (length population) <? k) then
      (Raised (ValueError "Sample larger than population or is negative"),
       emit (Sample population k []) s)
    else
      let chosen := choose host rng population (Z.to_nat k) in
      (Returned chosen, emit (Sample population k (fst chosen)) s).

(** [for image_path in chosen_images: ...] *)
Fixpoint check_images (chosen_images : list PyPath.Path) (checked passed : Z)
         (messages : list string) : M (Z * Z * list string) :=
  match chosen_images with
  | [] => ret (checked, passed, messages)
  | image_path :: chosen_images' =>
      let checked := checked + 1 in
      '(ok, detail) <- validate_jpg image_path ;;
      if ok : bool then
        check_images chosen_images' checked (passed + 1)
          (messages ++ [("[OK] " ++ image_path ++ " -> " ++ detail)%string])%list
      else
        check_images chosen_images' checked passed
          (messages ++ [("[FAIL] " ++ image_path ++ " -> " ++ detail)%string])%list
  end.

(** [sorted(folder.glob("*.jpg"))] *)
Definition list_images (folder : PyPath.Path) : M (list PyPath.Path) :=
  fun s => (Returned (PyStr.sorted (glob_jpg host folder (world s))), s).

(** [for folder in chosen_dirs: ...] *)
Fixpoint check_folders (rng : Rng host) (chosen_dirs : list PyPath.Path)
         (sample_images_per_dir : Z) (checked passed : Z)
         (messages : list string) : M (Z * Z * list string) :=
  match chosen_dirs with
  | [] => ret (checked, passed, messages)
  | folder :: chosen_dirs' =>
      images <- list_images folder ;;
      match images with
      | [] =>
          check_folders rng chosen_dirs' sample_images_per_dir checked passed
            (messages ++
             [("[WARN] No JPG images found in sampled folder: " ++ folder)%string])%list
      | _ =>
          '(chosen_images, rng) <-
            rng_sample rng images
              (Z.min sample_images_per_dir (Z.of_nat (length images))) ;;
          '(checked, passed, messages) <-
            check_images chosen_images checked passed messages ;;
          check_folders rng chosen_dirs' sample_images_per_dir checked passed messages
      end
  end.

(** [[res.output_dir for res in results
      if res.written_frames > 0 and res.output_dir.exists()]] *)
Definition candidate_dirs (results : list VideoResult) : M (list PyPath.Path) :=
  fun s =>
    (Returned
       (map output_dir
            (filter (fun res => (0 <? written_frames res) &&
                                path_exists host (output_dir res) (world s))
                    results)), s).

Definition run_quality_sampling (results : list VideoResult)
           (sample_dirs sample_images_per_dir seed : Z)
  : M (Z * Z * list string) :=
  let rng := Random host seed in
  candidate_dirs <- candidate_dirs results ;;
  match candidate_dirs with
  | [] => ret (0, 0, ["No converted directories available for sampling."])
  | _ =>
      '(chosen_dirs, rng) <-
        rng_sample rng candidate_dirs
          (Z.min sample_dirs (Z.of_nat (length candidate_dirs))) ;;
      check_folders rng chosen_dirs sample_images_per_dir 0 0 []
  end.

(** *** [main], from the collected results on *)

(** [not l] *)
Definition is_nil {A : Type} (l : list A) : bool :=
  match l with [] => true | _ => false end.

(** The status printed as each job completes. *)
Definition status (result : VideoResult) : string :=
  if is_nil (errors result) &&
     (written_frames result =? requested_frames result)
  then "OK" else "WARN".

(** [[res for res in results if res.written_frames == 0 or res.errors]] *)
Definition failed_videos (results : list VideoResult) : list VideoResult :=
  filter (fun res => (written_frames res =? 0) || negb (is_nil (errors res)))
         results.

(** [return 1 if failed_videos else 0] *)
Definition exit_code (results : list VideoResult) : Z :=
  if is_nil (failed_videos results) then 0 else 1.

(** The summary, the QA sampling and the exit code; the printing is
    left out. *)
Definition main_summary (results : list VideoResult)
           (sample_dirs sample_images seed : Z) : M Z :=
  let failed_videos := failed_videos results in
  _ <- run_quality_sampling results sample_dirs sample_images seed ;;
  ret (if is_nil failed_videos then 0 else 1).

End Script.

(** ** Numbers that the statements are about *)

(** The binary64 number that is the integer [n], for [0 <= n < 2^53]:
    53 mantissa bits, the leading one set. *)
Definition SF_of_Z (n : Z) : spec_float :=
  if (n =? 0)%Z then S754_zero false
  else S754_finite false (Z.to_pos (n * 2 ^ (52 - Z.log2 n))) (Z.log2 n - 52).

(** The ceiling of [n / m], for [m > 0]. *)
Definition ceil_div (n m : Z) : Z := ((n + m - 1) / m)%Z.

(** The least integer that is not below [m * 2^e]. *)
Definition ceiling (m : positive) (e : Z) : Z :=
  if (0 <=? e)%Z then (Zpos m * 2 ^ e)%Z else ceil_div (Zpos m) (2 ^ (- e)).

(** The ceiling of the quotient of two positive finite floats, taken on
    their exact values [m * 2^e]. *)
Definition ratio_ceil (x y : float) : option Z :=
  match Prim2SF x, Prim2SF y with
  | S754_finite false mx ex, S754_finite false my ey =>
      let e := Z.min ex ey in
      Some (ceil_div (Zpos mx * 2 ^ (ex - e)) (Zpos my * 2 ^ (ey - e)))
  | _, _ => None
  end.

(** ** Notions of the proofs *)

(** [SFcompare] orders two finite numbers of one sign by exponent, then
    by mantissa. *)
Definition lex (e1 : Z) (m1 : positive) (e2 : Z) (m2 : positive) : comparison :=
  match (e1 ?= e2)%Z with
  | Lt => Lt
  | Gt => Gt
  | Eq => Pos.compare_cont Eq m1 m2
  end.

(** Zero, of either sign, or above it. *)
Definition SFnonneg (x : spec_float) : Prop :=
  SFleb (S754_zero false) x = true.

(** Python's [a < b] on floats, as a relation. *)
Definition flt (a b : float) : Prop := (a <? b) = true.

(** No two members are [==]. *)
Definition distinct (s : list float) : Prop :=
  ForallOrdPairs (fun a b => (a =? b) = false) s.

(** What the loop keeps true of the set: it is [0.0] followed by
    non-negative numbers below the duration, without repetition. *)
Definition scheduled (d : float) (ts : list float) : Prop :=
  exists rest,
    ts = 0 :: rest /\
    Forall (fun c => (0 <=? c) = true /\ (c <? d) = true) rest /\
    distinct ts.

(** The cursor after [n] more turns of the loop. *)
Fixpoint cursor_after (n : nat) (interval cursor : float) : float :=
  match n with
  | O => cursor
  | S n' => cursor_after n' interval (cursor + interval)
  end.

(** The float [x] is the integer [n]. *)
Definition is_int (x : float) (n : Z) : Prop := Prim2SF x = SF_of_Z n.

(** The members of the set are integers below [c]. *)
Definition below (c : Z) (ts : list float) : Prop :=
  Forall (fun x => exists n, is_int x n /\ (0 <= n < c)%Z) ts.

(** The turns of the loop that are left when the cursor is [c]. *)
Definition turns (D I c : Z) : Z := Z.max 0 (ceil_div (D - c) I)%Z.

(** ** Observations that the statements are about *)

Section Observations.

Variable host : Host.

Local Open Scope string_scope.

(** What one render and its check leave behind: nothing when the frame
    counts as written, the message appended to [errors] otherwise. *)
Definition frame_error (render : M host unit) (frame_path : PyPath.Path)
  : M host (option string) :=
  bind (attempt (bind render (fun _ => exists_nonempty frame_path)))
       (fun r => ret match r with
                     | inr true => None
                     | inr false => Some ("Empty frame output: " ++ frame_path)
                     | inl exc =>
                         Some (PyPath.name frame_path ++ ": " ++ str_exn exc)
                     end).

(** The file of the frame number [index], taken at [timestamp]. *)
Definition frame_path (output_dir : PyPath.Path) (index : Z) (timestamp : float)
  : PyPath.Path :=
  PyPath.div output_dir (output_frame_name index timestamp).

(** The renders at the scheduled timestamps, one after the other. *)
Fixpoint frame_errors (video_path output_dir : PyPath.Path) (index : Z)
         (timestamps : list float) : M host (list (option string)) :=
  match timestamps with
  | [] => ret []
  | timestamp :: timestamps' =>
      let p := frame_path output_dir index timestamp in
      bind (frame_error (extract_one_frame video_path timestamp p) p)
           (fun o =>
              bind (frame_errors video_path output_dir (index + 1) timestamps')
                   (fun os => ret (o :: os)))
  end.

(** The commands of these renders. *)
Fixpoint frame_commands (video_path output_dir : PyPath.Path) (index : Z)
         (timestamps : list float) : list event :=
  match timestamps with
  | [] => []
  | timestamp :: timestamps' =>
      Run (extract_one_frame_command video_path timestamp
             (frame_path output_dir index timestamp))
      :: frame_commands video_path output_dir (index + 1) timestamps'
  end.

Definition is_written (o : option string) : bool :=
  match o with None => true | Some _ => false end.

Definition written_count (os : list (option string)) : Z :=
  Z.of_nat (length (filter is_written os)).

Fixpoint error_messages (os : list (option string)) : list string :=
  match os with
  | [] => []
  | None :: os' => error_messages os'
  | Some e :: os' => e :: error_messages os'
  end.

(** A command of [extract_last_frame]: the one with [-sseof] for seek
    option. *)
Definition is_last_frame_command (ev : event) : bool :=
  match ev with
  | Run command => String.eqb (nth 5 command "") "-sseof"
  | _ => false
  end.

Definition last_frame_attempts (l : list event) : nat :=
  length (filter is_last_frame_command l).

(** A result that [convert_video] returned. *)
Definition collected (r : VideoResult) : Prop :=
  exists fuel video_path interval_seconds output_root s s',
    convert_video fuel video_path interval_seconds output_root s
    = (Returned r, s' : Sys host).

(** A video with zero errors and full frame counts. *)
Definition clean (r : VideoResult) : Prop :=
  errors r = [] /\ written_frames r = requested_frames r.

(** A video with issues: fewer frames written than requested, or a
    non-empty error list, or no frame written. *)
Definition with_issues (r : VideoResult) : bool :=
  (written_frames r <? requested_frames r)%Z
  || negb (is_nil (errors r))
  || (written_frames r =? 0)%Z.

(** The two accumulators of [convert_video] after an attempt. *)
Definition bump (written : Z) (o : option string) : Z :=
  if is_written o then (written + 1)%Z else written.

Definition noted (errors : list string) (o : option string) : list string :=
  match o with None => errors | Some e => (errors ++ [e])%list end.

(** The path of the last frame, as [convert_video] names it. *)
Definition last_frame_path (dir : PyPath.Path) (timestamps : list float)
           (duration : float) : PyPath.Path :=
  frame_path dir ((Z.of_nat (length timestamps) + 1)%Z) duration.

(** A message in [errors] carries the name of the file of its frame. *)
Definition names_frame (e : string) (p : PyPath.Path) : Prop :=
  e = "Empty frame output: " ++ p \/
  exists detail, e = PyPath.name p ++ ": " ++ detail.

(** Every command that the host is given runs to its end: the run may
    fail, with a return code, but does not raise. *)
Definition runs_commands : Prop :=
  forall (command : list string) (w : World host),
  exists result w', subprocess_run host command w = (inr result, w').

(** Some result has frames and its output directory is there: the QA
    sampling has a directory to sample from. *)
Definition samplable (results : list VideoResult) (s : Sys host) : Prop :=
  exists res, In res results /\ (0 < written_frames res)%Z /\
              path_exists host (output_dir res) (world s) = true.

(** Two runs of a computation, from two states, that end alike and do
    the same things to the outside. *)
Definition same_run {A : Type} (c : M host A) (s1 s2 : Sys host) : Prop :=
  fst (c s1) = fst (c s2) /\
  exists evs, log (snd (c s1)) = (log s1 ++ evs)%list /\
              log (snd (c s2)) = (log s2 ++ evs)%list.

End Observations.

(** ** A scripted host

    A 95-second video whose render at 60 s fails; every other call
    succeeds and every file written is found non-empty. *)

Module Scripted.
Local Open Scope string_scope.

Definition completed (code : Z) (out err : string) : CompletedProcess :=
  {| returncode := code; stdout := out; stderr := err |}.

(** The world is the number of commands run so far. *)
Definition run (command : list string) (w : nat)
  : (exn + CompletedProcess) * nat :=
  (inr match command with
       | "ffprobe" :: "-v" :: "error" :: "-show_entries" :: _ =>
           completed 0 "95.000000
" ""
       | "ffprobe" :: _ => completed 0 "mjpeg
1920
1080
" ""
       | "ffmpeg" :: _ :: _ :: _ :: _ :: "-ss" :: "60.000" :: _ =>
           completed 1 "" "seek failed
"
       | _ => completed 0 "" ""
       end, S w).

Definition lines3 (s : string) : list string :=
  if String.eqb s "" then [] else ["mjpeg"; "1920"; "1080"].

Definition host_running
           (run : list string -> nat -> (exn + CompletedProcess) * nat)
  : Host := {|
  World := nat;
  subprocess_run := run;
  mkdir := fun _ w => (inr tt, w);
  path_exists := fun _ _ => true;
  st_size := fun _ _ => inr 4096%Z;
  glob_jpg := fun folder _ =>
    [PyPath.div folder "frame_000002_t30p000.jpg";
     PyPath.div folder "frame_000001_t0p000.jpg"];
  float_of_str := fun s => if String.eqb s "95.000000" then Some 95%float else None;
  int_of_str := fun s =>
    if String.eqb s "1920" then Some 1920%Z
    else if String.eqb s "1080" then Some 1080%Z else None;
  str_float := fun _ => "";
  str_list := fun _ => "";
  splitlines := lines3;
  Rng := Z;
  Random := fun seed => seed;
  choose := fun g population k => (firstn k population, (g + 1)%Z)
|}.

Definition host : Host := host_running run.

Definition start : Sys host := Build_Sys host O [].

(** The same host with a video that [ffprobe] cannot read. *)
Definition run_unreadable (command : list string) (w : nat)
  : (exn + CompletedProcess) * nat :=
  match command with
  | "ffprobe" :: "-v" :: "error" :: "-show_entries" :: _ =>
      (inr (completed 1 "" "moov atom not found
"), S w)
  | _ => run command w
  end.

Definition unreadable : Host := host_running run_unreadable.

Definition start_unreadable : Sys unreadable := Build_Sys unreadable O [].

(** The video of the scenario, and the states that [convert_video] goes
    through on it with an interval of 30 s. *)
Definition clip : PyPath.Path := "/videos/clip.mp4".

Definition clip_dir_made : Sys host :=
  snd (make_dir (video_output_dir clip None) start).

Definition clip_probed : Sys host :=
  snd (probe_duration_seconds clip clip_dir_made).

Definition clip_converted : outcome VideoResult * Sys host :=
  convert_video 10 clip 30 None start.

(** What it returns: the frame at 60 s is missing, and named. *)
Definition clip_result : VideoResult :=
  Build_VideoResult clip "/videos/clip" 5 4
                    ["frame_000003_t60p000.jpg: seek failed"].

(** With an interval of 50 s every render of the video succeeds: three
    frames of three, and no error. *)
Definition clean_result : VideoResult :=
  Build_VideoResult clip "/videos/clip" 3 3 [].

(** A later state of the same host: seven commands run, a directory made. *)
Definition later : Sys host := Build_Sys host 7%nat [Mkdir clip].

End Scripted.

(* ================================================================== *)
(** * Properties *)

Unset Implicit Arguments.

(** ** Binary64 facts

    The order and the sign facts of binary64 that the scheduler rests on,
    derived from the specification of the primitive operations. *)

Module F64.

Lemma lex_Lt e1 m1 e2 m2 :
  lex e1 m1 e2 m2 = Lt <-> (e1 < e2 \/ (e1 = e2 /\ Zpos m1 < Zpos m2))%Z.
Proof.
  unfold lex. change (Pos.compare_cont Eq m1 m2) with (m1 ?= m2)%positive.
  destruct (Z.compare_spec e1 e2); [destruct (Pos.compare_spec m1 m2)| |];
    split; intros; try discriminate; try reflexivity; lia.
Qed.

Lemma lex_Gt e1 m1 e2 m2 :
  lex e1 m1 e2 m2 = Gt <-> (e2 < e1 \/ (e1 = e2 /\ Zpos m2 < Zpos m1))%Z.
Proof.
  unfold lex. change (Pos.compare_cont Eq m1 m2) with (m1 ?= m2)%positive.
  destruct (Z.compare_spec e1 e2); [destruct (Pos.compare_spec m1 m2)| |];
    split; intros; try discriminate; try reflexivity; lia.
Qed.

Lemma lex_opp_Lt e1 m1 e2 m2 :
  match (e1 ?= e2)%Z with
  | Lt => Gt
  | Gt => Lt
  | Eq => CompOpp (Pos.compare_cont Eq m1 m2)
  end = Lt <-> lex e1 m1 e2 m2 = Gt.
Proof.
  unfold lex. destruct (e1 ?= e2)%Z; [destruct (Pos.compare_cont Eq m1 m2)| |];
    simpl; split; congruence.
Qed.

Lemma SFcompare_antisym (x y : spec_float) :
  SFcompare y x = option_map CompOpp (SFcompare x y).
Proof.
  destruct x as [[]|[]| |[] mx ex], y as [[]|[]| |[] my ey];
    simpl; try reflexivity;
    change (Pos.compare_cont Eq) with Pos.compare;
    rewrite (Z.compare_antisym ex ey), (Pos.compare_antisym mx my);
    destruct (ex ?= ey)%Z; simpl; try reflexivity;
    rewrite CompOpp_involutive; reflexivity.
Qed.


Lemma lex_Eq e1 m1 e2 m2 :
  lex e1 m1 e2 m2 = Eq <-> (e1 = e2 /\ Zpos m1 = Zpos m2)%Z.
Proof.
  unfold lex. change (Pos.compare_cont Eq m1 m2) with (m1 ?= m2)%positive.
  destruct (Z.compare_spec e1 e2); [destruct (Pos.compare_spec m1 m2)| |];
    split; intros; try discriminate; try reflexivity; lia.
Qed.

Lemma SFcompare_finite s1 m1 e1 s2 m2 e2 :
  SFcompare (S754_finite s1 m1 e1) (S754_finite s2 m2 e2) =
  Some (match s1, s2 with
        | true, false => Lt
        | false, true => Gt
        | false, false => lex e1 m1 e2 m2
        | true, true => CompOpp (lex e1 m1 e2 m2)
        end).
Proof.
  unfold lex. destruct s1, s2; simpl; try reflexivity.
  destruct (e1 ?= e2)%Z; reflexivity.
Qed.

Ltac lex_facts :=
  repeat match goal with
         | H : lex _ _ _ _ = Lt |- _ => apply lex_Lt in H
         | H : lex _ _ _ _ = Gt |- _ => apply lex_Gt in H
         | H : lex _ _ _ _ = Eq |- _ => apply lex_Eq in H
         end.

Lemma SFltb_trans (x y z : spec_float) :
  SFltb x y = true -> SFltb y z = true -> SFltb x z = true.
Proof.
  unfold SFltb.
  destruct x as [[]|[]| |sx mx ex], y as [[]|[]| |sy my ey],
           z as [[]|[]| |sz mz ez];
    rewrite ?SFcompare_finite;
    repeat match goal with s : bool |- _ => destruct s end;
    try (simpl; congruence).
  all: destruct (lex ex mx ey my) eqn:E1; simpl; try congruence;
    destruct (lex ey my ez mz) eqn:E2; simpl; try congruence;
    destruct (lex ex mx ez mz) eqn:E3; simpl; try congruence;
    intros _ _; exfalso; lex_facts; lia.
Qed.

Section Sign.
Variables prec emax : Z.

Lemma shr_1_nonneg mrs : (0 <= shr_m mrs)%Z -> (0 <= shr_m (shr_1 mrs))%Z.
Proof.
  destruct mrs as [m r s]. simpl.
  destruct m as [|[p|p|]|p]; simpl; intros; lia.
Qed.

Lemma iter_shr_1_nonneg p :
  forall mrs, (0 <= shr_m mrs)%Z -> (0 <= shr_m (iter_pos shr_1 p mrs))%Z.
Proof.
  induction p as [p IH|p IH|]; simpl; intros mrs H.
  - apply IH, IH, shr_1_nonneg, H.
  - apply IH, IH, H.
  - apply shr_1_nonneg, H.
Qed.

Lemma shr_fexp_nonneg m e l :
  (0 <= m)%Z -> (0 <= shr_m (fst (shr_fexp prec emax m e l)))%Z.
Proof.
  intros H. unfold shr_fexp, shr.
  assert (H0 : (0 <= shr_m (shr_record_of_loc m l))%Z)
    by (destruct l as [|[]]; exact H).
  destruct (fexp prec emax (Zdigits2 m + e) - e)%Z; simpl; auto.
  apply iter_shr_1_nonneg, H0.
Qed.

Lemma round_nearest_even_nonneg m l :
  (0 <= m)%Z -> (0 <= round_nearest_even m l)%Z.
Proof.
  intros H. destruct l as [|[]]; simpl; try lia.
  destruct (Z.even m); lia.
Qed.

Lemma binary_round_aux_nonneg mx ex lx :
  (0 <= mx)%Z -> SFnonneg (binary_round_aux prec emax false mx ex lx).
Proof.
  intros H. unfold binary_round_aux.
  pose proof (@shr_fexp_nonneg mx ex lx H) as H1.
  destruct (shr_fexp prec emax mx ex lx) as [mrs' e']. simpl in H1.
  pose proof (@shr_fexp_nonneg _ e' loc_Exact
                (@round_nearest_even_nonneg _ (loc_of_shr_record mrs') H1)) as H2.
  destruct (shr_fexp prec emax _ e' loc_Exact) as [mrs'' e'']. simpl in H2.
  destruct (shr_m mrs'') as [|m|m]; try reflexivity; try lia.
  destruct (e'' <=? emax - prec)%Z; reflexivity.
Qed.

Lemma SFadd_nonneg x y :
  SFnonneg x -> SFnonneg y -> SFnonneg (SFadd prec emax x y).
Proof.
  unfold SFnonneg. intros Hx Hy.
  destruct x as [[]|[]| |[] mx ex], y as [[]|[]| |[] my ey];
    try discriminate Hx; try discriminate Hy; try reflexivity.
  unfold SFadd, binary_normalize, cond_Zopp, binary_round.
  destruct (fst (shl_align mx ex (Z.min ex ey)));
    destruct (fst (shl_align my ey (Z.min ex ey))); simpl;
    match goal with
    | |- context [shl_align ?m ?e ?e'] => destruct (shl_align m e e')
    end; apply binary_round_aux_nonneg; lia.
Qed.
End Sign.

Lemma add_nonneg (x y : float) :
  (0 <=? x) = true -> (0 <=? y) = true -> (0 <=? x + y) = true.
Proof.
  rewrite !FloatAxioms.leb_spec, FloatAxioms.add_spec. apply SFadd_nonneg.
Qed.

(** [x == x] is how Python (and IEEE) tells a number from a NaN. *)
Lemma eqb_refl_not_nan (x : float) :
  (x =? x) = true <-> Prim2SF x <> S754_nan.
Proof.
  rewrite FloatAxioms.eqb_spec. unfold SFeqb. split.
  - intros H E. rewrite E in H. discriminate.
  - intros H. destruct (Prim2SF x) as [[]|[]| |[] m e];
      try congruence; try reflexivity;
      rewrite SFcompare_finite; unfold lex;
      rewrite Z.compare_refl, Pos.compare_cont_refl; reflexivity.
Qed.

Lemma SFcompare_defined (x y : spec_float) :
  x <> S754_nan -> y <> S754_nan -> exists c, SFcompare x y = Some c.
Proof.
  destruct x as [[]|[]| |[] mx ex], y as [[]|[]| |[] my ey];
    simpl; intros Hx Hy; try congruence; eexists; reflexivity.
Qed.

Lemma eqb_sym (x y : float) : (x =? y) = (y =? x).
Proof.
  rewrite !FloatAxioms.eqb_spec. unfold SFeqb.
  rewrite (SFcompare_antisym (Prim2SF x) (Prim2SF y)).
  destruct (SFcompare (Prim2SF x) (Prim2SF y)) as [[]|]; reflexivity.
Qed.

Lemma ltb_not_nan_r (x y : float) : (x <? y) = true -> (y =? y) = true.
Proof.
  rewrite FloatAxioms.ltb_spec. unfold SFltb. intros H. apply eqb_refl_not_nan.
  intros E. rewrite E in H. destruct (Prim2SF x); discriminate.
Qed.

Lemma leb_not_nan_r (x y : float) : (x <=? y) = true -> (y =? y) = true.
Proof.
  rewrite FloatAxioms.leb_spec. unfold SFleb. intros H. apply eqb_refl_not_nan.
  intros E. rewrite E in H. destruct (Prim2SF x); discriminate.
Qed.

Lemma ltb_leb (x y : float) : (x <? y) = true -> (x <=? y) = true.
Proof.
  rewrite FloatAxioms.ltb_spec, FloatAxioms.leb_spec. unfold SFltb, SFleb.
  destruct (SFcompare (Prim2SF x) (Prim2SF y)) as [[]|]; congruence.
Qed.

Lemma ltb_not_leb (x y : float) : (x <? y) = true -> (y <=? x) = false.
Proof.
  rewrite FloatAxioms.ltb_spec, FloatAxioms.leb_spec. unfold SFltb, SFleb.
  rewrite (SFcompare_antisym (Prim2SF x) (Prim2SF y)).
  destruct (SFcompare (Prim2SF x) (Prim2SF y)) as [[]|]; simpl; congruence.
Qed.

(** On numbers, [<=] without [==] is [<]. *)
Lemma leb_neq_ltb (x y : float) :
  (x <=? y) = true -> (x =? y) = false -> (x <? y) = true.
Proof.
  rewrite FloatAxioms.ltb_spec, FloatAxioms.leb_spec, FloatAxioms.eqb_spec. unfold SFltb, SFleb, SFeqb.
  destruct (SFcompare (Prim2SF x) (Prim2SF y)) as [[]|]; congruence.
Qed.

(** Trichotomy: two numbers that are neither [<] nor [==] are [>]. *)
Lemma trichotomy (x y : float) :
  (x =? x) = true -> (y =? y) = true ->
  (x <? y) = false -> (x =? y) = false -> (y <? x) = true.
Proof.
  intros Hx Hy. apply eqb_refl_not_nan in Hx, Hy.
  destruct (SFcompare_defined _ _ Hx Hy) as [c Hc].
  rewrite !FloatAxioms.ltb_spec, FloatAxioms.eqb_spec. unfold SFltb, SFeqb.
  rewrite (SFcompare_antisym (Prim2SF x) (Prim2SF y)), Hc.
  destruct c; simpl; congruence.
Qed.

Lemma ltb_trans (x y z : float) :
  (x <? y) = true -> (y <? z) = true -> (x <? z) = true.
Proof. rewrite !FloatAxioms.ltb_spec. apply SFltb_trans. Qed.

End F64.

Local Open Scope Z_scope.

(** ** The floats of the integers

    Below [2^53] the integers are binary64 numbers, and adding or comparing
    two of them is exact. *)

Module F64Int.

Lemma digits2_pos_log2 (p : positive) :
  Zpos (digits2_pos p) = Z.log2 (Zpos p) + 1.
Proof.
  assert (H : forall q, digits2_pos q = Pos.size q)
    by (induction q as [q IH|q IH|]; simpl; congruence).
  rewrite H. destruct p; simpl; lia.
Qed.

(** Shifting out [p] zero bits is exact. *)
Lemma shr_1_exact (m : positive) (x : Z) :
  x = Zpos m * 2 ->
  shr_1 (Build_shr_record x false false) = Build_shr_record (Zpos m) false false.
Proof. intros ->. replace (Zpos m * 2) with (Zpos m~0) by lia. reflexivity. Qed.

Lemma Zpos_mul_pow2 (m p : positive) :
  Zpos (m * 2 ^ p) = Zpos m * 2 ^ Zpos p.
Proof. rewrite Pos2Z.inj_mul, Pos2Z.inj_pow. reflexivity. Qed.

Lemma iter_shr_1_exact (p : positive) :
  forall (m : positive) (x : Z),
    x = Zpos m * 2 ^ Zpos p ->
    iter_pos shr_1 p (Build_shr_record x false false)
    = Build_shr_record (Zpos m) false false.
Proof.
  induction p as [p IH|p IH|]; intros m x Hx; cbn [iter_pos].
  - rewrite (shr_1_exact (m * 2 ^ p * 2 ^ p) x).
    + rewrite (IH (m * 2 ^ p)%positive);
        [apply IH|]; apply Zpos_mul_pow2.
    + rewrite Hx, (Zpos_mul_pow2 (m * 2 ^ p) p), (Zpos_mul_pow2 m p),
        (Pos2Z.inj_xI p).
      replace (2 * Z.pos p + 1) with (Z.pos p + Z.pos p + 1) by lia.
      rewrite !Z.pow_add_r, Z.pow_1_r by lia. ring.
  - rewrite (IH (m * 2 ^ p)%positive);
      [apply IH; apply Zpos_mul_pow2|].
    rewrite Hx, (Zpos_mul_pow2 m p), (Pos2Z.inj_xO p).
    replace (2 * Z.pos p) with (Z.pos p + Z.pos p) by lia.
    rewrite !Z.pow_add_r by lia. ring.
  - apply shr_1_exact. rewrite Hx, Z.pow_1_r. reflexivity.
Qed.

Lemma fexp64 (x : Z) : fexp prec emax x = Z.max (x - 53) (-1074).
Proof. reflexivity. Qed.

Lemma Zdigits2_log2 (m : Z) : 0 < m -> Zdigits2 m = Z.log2 m + 1.
Proof.
  destruct m as [|p|p]; try lia. intros _. apply digits2_pos_log2.
Qed.

(** The first rounding step, on an integer [n] written with [- e] zero
    bits too many: they are shifted out, down to 53 bits. *)
Lemma shr_fexp_exact (n e : Z) :
  0 < n < 2 ^ 53 -> -1074 <= e <= Z.log2 n - 52 ->
  shr_fexp prec emax (n * 2 ^ (52 - Z.log2 n) * 2 ^ (Z.log2 n - 52 - e)) e loc_Exact
  = (Build_shr_record (n * 2 ^ (52 - Z.log2 n)) false false, Z.log2 n - 52).
Proof.
  intros Hn He.
  assert (HL : 0 <= Z.log2 n < 53).
  { split; [apply Z.log2_nonneg|]. apply Z.log2_lt_pow2; lia. }
  assert (Hlog : Z.log2 (n * 2 ^ (52 - Z.log2 n)) = 52)
    by (rewrite Z.log2_mul_pow2 by lia; lia).
  assert (Hm : 0 < n * 2 ^ (52 - Z.log2 n))
    by (apply Z.mul_pos_pos; [lia|apply Z.pow_pos_nonneg; lia]).
  remember (n * 2 ^ (52 - Z.log2 n)) as m eqn:Em.
  remember (Z.log2 n) as L eqn:EL.
  unfold shr_fexp. rewrite fexp64.
  rewrite Zdigits2_log2
    by (apply Z.mul_pos_pos; [lia | apply Z.pow_pos_nonneg; lia]).
  rewrite (Z.log2_mul_pow2 m (L - 52 - e)) by lia.
  rewrite Hlog.
  replace (Z.max (L - 52 - e + 52 + 1 + e - 53) (-1074) - e)
    with (L - 52 - e) by lia.
  unfold shr. destruct (L - 52 - e) as [|p|p] eqn:Hp; try lia.
  - rewrite Z.pow_0_r, Z.mul_1_r. cbn [shr_record_of_loc]. f_equal. lia.
  - cbn [shr_record_of_loc].
    destruct m as [|q|q]; try lia.
    rewrite (iter_shr_1_exact p q _ eq_refl). f_equal. lia.
Qed.

(** A 53-bit mantissa at its own exponent is left alone. *)
Lemma shr_fexp_canonical (m e : Z) :
  0 < m -> Z.log2 m = 52 -> -1074 <= e ->
  shr_fexp prec emax m e loc_Exact = (Build_shr_record m false false, e).
Proof.
  intros Hm Hlog He. unfold shr_fexp. rewrite fexp64, Zdigits2_log2, Hlog by exact Hm.
  replace (Z.max (52 + 1 + e - 53) (-1074) - e) with 0 by lia.
  reflexivity.
Qed.

(** An integer below [2^53], however many zero bits it is written with,
    rounds to itself. *)
Lemma binary_normalize_exact (n e : Z) :
  0 < n < 2 ^ 53 -> -1074 <= e <= Z.log2 n - 52 ->
  binary_normalize prec emax (n * 2 ^ (- e)) e false = SF_of_Z n.
Proof.
  intros Hn He.
  assert (HL : 0 <= Z.log2 n < 53).
  { split; [apply Z.log2_nonneg|]. apply Z.log2_lt_pow2; lia. }
  assert (Hlog : Z.log2 (n * 2 ^ (52 - Z.log2 n)) = 52)
    by (rewrite Z.log2_mul_pow2 by lia; lia).
  assert (Hm : 0 < n * 2 ^ (52 - Z.log2 n))
    by (apply Z.mul_pos_pos; [lia|apply Z.pow_pos_nonneg; lia]).
  assert (Hsplit : n * 2 ^ (- e)
                   = n * 2 ^ (52 - Z.log2 n) * 2 ^ (Z.log2 n - 52 - e)).
  { rewrite <- Z.mul_assoc, <- Z.pow_add_r by lia. f_equal. f_equal. lia. }
  assert (HM : 0 < n * 2 ^ (- e))
    by (apply Z.mul_pos_pos; [lia|apply Z.pow_pos_nonneg; lia]).
  unfold SF_of_Z. replace (n =? 0) with false by (symmetry; apply Z.eqb_neq; lia).
  destruct (n * 2 ^ (- e)) as [|M|M] eqn:EM; try lia.
  unfold binary_normalize, binary_round.
  rewrite fexp64, digits2_pos_log2, <- EM.
  rewrite (Z.log2_mul_pow2 n (- e)) by lia.
  unfold shl_align.
  destruct (Z.max (- e + Z.log2 n + 1 + e - 53) (-1074) - e) as [|d|d] eqn:Hd;
    try lia;
    unfold binary_round_aux; rewrite Hsplit, (shr_fexp_exact n e Hn He);
    cbn [shr_m loc_of_shr_record round_nearest_even];
    rewrite (shr_fexp_canonical _ _ Hm Hlog) by lia;
    cbn [shr_m];
    destruct (n * 2 ^ (52 - Z.log2 n)) as [|q|q]; try lia;
    replace (Z.log2 n - 52 <=? emax - prec) with true
      by (symmetry; apply Z.leb_le; unfold emax, prec; lia);
    reflexivity.
Qed.

Lemma Pos_iter_xO (m d : positive) :
  Zpos (Pos.iter xO m d) = Zpos m * 2 ^ Zpos d.
Proof.
  induction d as [|d IH] using Pos.peano_ind.
  - simpl. lia.
  - rewrite Pos.iter_succ, Pos2Z.inj_xO, IH, Pos2Z.inj_succ, Z.pow_succ_r by lia.
    ring.
Qed.

Lemma shl_align_fst (m : positive) (e e' : Z) :
  e' <= e -> Zpos (fst (shl_align m e e')) = Zpos m * 2 ^ (e - e').
Proof.
  intros Hle. unfold shl_align.
  destruct (e' - e) as [|d|d] eqn:Hd; try lia; cbn [fst].
  - replace (e - e') with 0 by lia. lia.
  - rewrite Pos_iter_xO. f_equal. f_equal. lia.
Qed.

(** The mantissa and the exponent of the float of a positive integer. *)
Lemma SF_of_Z_pos (n : Z) :
  0 < n < 2 ^ 53 ->
  exists m, SF_of_Z n = S754_finite false m (Z.log2 n - 52) /\
            Zpos m = n * 2 ^ (52 - Z.log2 n) /\
            0 <= Z.log2 n < 53.
Proof.
  intros Hn.
  assert (HL : 0 <= Z.log2 n < 53).
  { split; [apply Z.log2_nonneg|]. apply Z.log2_lt_pow2; lia. }
  assert (Hm : 0 < n * 2 ^ (52 - Z.log2 n))
    by (apply Z.mul_pos_pos; [lia|apply Z.pow_pos_nonneg; lia]).
  exists (Z.to_pos (n * 2 ^ (52 - Z.log2 n))). unfold SF_of_Z.
  replace (n =? 0) with false by (symmetry; apply Z.eqb_neq; lia).
  split; [reflexivity|]. split; [apply Z2Pos.id, Hm | exact HL].
Qed.

(** Adding two positive integers whose sum is below [2^53] is exact. *)
Lemma SF64add_exact (a b : Z) :
  0 < a -> 0 < b -> a + b < 2 ^ 53 ->
  SF64add (SF_of_Z a) (SF_of_Z b) = SF_of_Z (a + b).
Proof.
  intros Ha Hb Hab.
  destruct (SF_of_Z_pos a) as (ma & -> & Hma & HLa); [lia|].
  destruct (SF_of_Z_pos b) as (mb & -> & Hmb & HLb); [lia|].
  assert (Hmono_a : Z.log2 a <= Z.log2 (a + b)) by (apply Z.log2_le_mono; lia).
  assert (Hmono_b : Z.log2 b <= Z.log2 (a + b)) by (apply Z.log2_le_mono; lia).
  unfold SF64add, SFadd, cond_Zopp.
  set (ez := Z.min (Z.log2 a - 52) (Z.log2 b - 52)).
  rewrite !shl_align_fst, Hma, Hmb by (unfold ez; lia).
  replace (a * 2 ^ (52 - Z.log2 a) * 2 ^ (Z.log2 a - 52 - ez)
           + b * 2 ^ (52 - Z.log2 b) * 2 ^ (Z.log2 b - 52 - ez))
    with ((a + b) * 2 ^ (- ez)).
  - apply binary_normalize_exact; unfold ez; lia.
  - rewrite <- !Z.mul_assoc, <- !Z.pow_add_r by (unfold ez; lia).
    replace (52 - Z.log2 a + (Z.log2 a - 52 - ez)) with (- ez) by lia.
    replace (52 - Z.log2 b + (Z.log2 b - 52 - ez)) with (- ez) by lia.
    ring.
Qed.

(** The floats of the integers are ordered as the integers are. *)
Lemma SFcompare_of_Z (a b : Z) :
  0 < a < 2 ^ 53 -> 0 < b < 2 ^ 53 ->
  SFcompare (SF_of_Z a) (SF_of_Z b) = Some (a ?= b).
Proof.
  intros Ha Hb.
  destruct (SF_of_Z_pos a Ha) as (ma & -> & Hma & HLa).
  destruct (SF_of_Z_pos b Hb) as (mb & -> & Hmb & HLb).
  cbn [SFcompare]. f_equal.
  change (PosDef.Pos.compare_cont Eq ma mb) with (Pos.compare ma mb).
  rewrite (Pos2Z.inj_compare ma mb), Hma, Hmb.
  destruct (Z.compare_spec (Z.log2 a - 52) (Z.log2 b - 52)) as [He|He|He].
  - replace (Z.log2 b) with (Z.log2 a) by lia.
    assert (Hp : 0 < 2 ^ (52 - Z.log2 a)) by (apply Z.pow_pos_nonneg; lia).
    destruct (Z.compare_spec a b) as [->|Hlt|Hgt].
    + apply Z.compare_refl.
    + apply Z.compare_lt_iff, Z.mul_lt_mono_pos_r; assumption.
    + apply Z.compare_gt_iff, Z.mul_lt_mono_pos_r; assumption.
  - symmetry. apply Z.compare_lt_iff.
    destruct (Z.lt_ge_cases a b) as [|Hge]; [assumption|].
    apply Z.log2_le_mono in Hge. lia.
  - symmetry. apply Z.compare_gt_iff.
    destruct (Z.lt_ge_cases b a) as [|Hge]; [assumption|].
    apply Z.log2_le_mono in Hge. lia.
Qed.

End F64Int.

Local Close Scope Z_scope.

(** ** Facts about the set and the sort *)

Module PySetFacts.
Import PySet.

Lemma mem_false (x : float) (s : list float) :
  mem x s = false -> Forall (fun y => (y =? x) = false) s.
Proof.
  unfold mem. induction s as [|y s IH]; simpl; intros H; constructor.
  - apply orb_false_elim in H. apply H.
  - apply IH. apply orb_false_elim in H. apply H.
Qed.

Lemma distinct_snoc (x : float) (s : list float) :
  distinct s -> Forall (fun y => (y =? x) = false) s -> distinct (s ++ [x]).
Proof.
  unfold distinct. induction 1 as [|y s Hy Hs IH]; simpl; intros HF.
  - repeat constructor.
  - inversion HF; subst. constructor.
    + apply Forall_app. split; [exact Hy | repeat constructor; assumption].
    + apply IH. assumption.
Qed.

Lemma add_distinct (x : float) (s : list float) :
  distinct s -> distinct (add x s).
Proof.
  intros H. unfold add. destruct (mem x s) eqn:E; [exact H|].
  apply distinct_snoc; [exact H | apply mem_false, E].
Qed.

Lemma add_Forall (P : float -> Prop) (x : float) (s : list float) :
  P x -> Forall P s -> Forall P (add x s).
Proof.
  intros Hx Hs. unfold add. destruct (mem x s); [exact Hs|].
  apply Forall_app. split; [exact Hs | repeat constructor; exact Hx].
Qed.

(** Adding to a non-empty set leaves its first member in place. *)
Lemma add_cons (x y : float) (s : list float) :
  exists s', add x (y :: s) = y :: s' /\
             (forall P : float -> Prop, P x -> Forall P s -> Forall P s').
Proof.
  unfold add. destruct (mem x (y :: s)).
  - exists s. split; [reflexivity | intros; assumption].
  - exists (s ++ [x]). split; [reflexivity|]. intros P Hx Hs.
    apply Forall_app. split; [exact Hs | repeat constructor; exact Hx].
Qed.

Lemma insert_In (x y : float) (l : list float) :
  In y (insert x l) <-> y = x \/ In y l.
Proof.
  induction l as [|z l IH]; simpl.
  - intuition auto.
  - destruct (x <? z); simpl; rewrite ?IH; intuition auto.
Qed.

Lemma sorted_In (y : float) (s : list float) :
  In y (sorted s) <-> In y s.
Proof.
  unfold sorted. induction s as [|x s IH]; simpl; [reflexivity|].
  rewrite insert_In, IH. intuition auto.
Qed.

Lemma sorted_Forall (P : float -> Prop) (s : list float) :
  Forall P s -> Forall P (sorted s).
Proof.
  rewrite !Forall_forall. intros H y Hy. apply H, (proj1 (sorted_In y s)), Hy.
Qed.

Lemma insert_length (x : float) (l : list float) :
  length (insert x l) = S (length l).
Proof.
  induction l as [|z l IH]; simpl; [reflexivity|].
  destruct (x <? z); simpl; [reflexivity | rewrite IH; reflexivity].
Qed.

Lemma sorted_length (s : list float) : length (sorted s) = length s.
Proof.
  unfold sorted. induction s as [|x s IH]; simpl; [reflexivity|].
  rewrite insert_length, IH. reflexivity.
Qed.

(** Inserting a number among numbers that differ from it keeps a strictly
    increasing list strictly increasing. *)
Lemma insert_Sorted (x : float) (l : list float) :
  (x =? x) = true ->
  Forall (fun y => (y =? y) = true /\ (x =? y) = false) l ->
  Sorted flt l -> Sorted flt (insert x l).
Proof.
  intros Hx. induction l as [|y l IH]; simpl; intros HF HS.
  - repeat constructor.
  - inversion HF as [|? ? [Hy Hxy] HF']; subst.
    inversion HS as [|? ? HS' Hhd]; subst.
    destruct (x <? y) eqn:E.
    + constructor; [exact HS | constructor; exact E].
    + assert (Hyx : flt y x) by (apply F64.trichotomy; assumption).
      constructor; [apply IH; assumption|].
      destruct l as [|z l]; simpl.
      * constructor. exact Hyx.
      * destruct (x <? z); constructor; [exact Hyx|].
        inversion Hhd; assumption.
Qed.

Lemma sorted_Sorted (s : list float) :
  Forall (fun y => (y =? y) = true) s -> distinct s -> Sorted flt (sorted s).
Proof.
  unfold distinct. induction s as [|x s IH]; simpl; intros HF HD.
  - constructor.
  - inversion HF; subst. inversion HD; subst.
    apply insert_Sorted; [assumption| |apply IH; assumption].
    apply Forall_forall. intros y Hy. apply (proj1 (sorted_In y s)) in Hy.
    repeat match goal with
           | H : Forall _ s |- _ => rewrite Forall_forall in H;
                                    specialize (H y Hy)
           end.
    split; assumption.
Qed.

(** A number below every member goes first. *)
Lemma insert_least (x : float) (l : list float) :
  Forall (flt x) l -> insert x l = x :: l.
Proof.
  destruct l as [|y l]; simpl; [reflexivity|].
  intros H. inversion H as [|? ? Hxy]; subst. unfold flt in Hxy.
  rewrite Hxy. reflexivity.
Qed.

#[local] Instance flt_trans : RelationClasses.Transitive flt.
Proof. intros x y z. apply F64.ltb_trans. Qed.

Lemma sorted_StronglySorted (s : list float) :
  Forall (fun y => (y =? y) = true) s -> distinct s ->
  StronglySorted flt (sorted s).
Proof.
  intros HF HD. apply Sorted_StronglySorted; [exact flt_trans|].
  apply sorted_Sorted; assumption.
Qed.

End PySetFacts.

(** ** The timestamp scheduler *)

Module Scheduler.
Import PySet PySetFacts.

Lemma loop_scheduled (d i : float) (Hi : (0 <=? i) = true) (fuel : nat) :
  forall ts cursor ts',
    scheduled d ts -> (0 <=? cursor) = true ->
    build_timestamps_loop fuel d i ts cursor = Some ts' ->
    scheduled d ts'.
Proof.
  induction fuel as [|fuel IH]; intros ts cursor ts' Hts Hc; simpl;
    destruct (cursor <? d) eqn:E; intros H; try discriminate;
    try (injection H as <-; exact Hts).
  apply IH in H; [exact H| |apply F64.add_nonneg; assumption].
  destruct Hts as (rest & -> & HF & HD).
  destruct (add_cons cursor 0 rest) as (rest' & Hadd & Hall).
  exists rest'. split; [exact Hadd|]. split.
  - apply Hall; [split; assumption | exact HF].
  - apply add_distinct, HD.
Qed.

Lemma last_cons_In (A : Type) (l : list A) :
  forall a d : A, In (last (a :: l) d) (a :: l).
Proof.
  induction l as [|y l IH]; intros a d; [left; reflexivity|].
  right. apply (IH y d).
Qed.

(** The sorted list of such a set. *)
Lemma scheduled_sorted (d : float) (ts : list float) :
  (0 <? d) = true -> scheduled d ts ->
  exists rest,
    sorted ts = 0 :: rest /\
    StronglySorted flt (0 :: rest) /\
    (last (0 :: rest) 0 <? d) = true /\
    length (0 :: rest) = length ts.
Proof.
  intros Hd (rest & -> & HF & HD).
  inversion HD as [|? ? H0 HD']; subst.
  assert (Hpos : Forall (flt 0) rest).
  { apply Forall_forall. intros c Hc.
    rewrite Forall_forall in HF, H0.
    apply F64.leb_neq_ltb; [apply (HF c Hc) | apply (H0 c Hc)]. }
  assert (Hnum : Forall (fun y => (y =? y) = true) rest).
  { apply Forall_forall. intros c Hc. rewrite Forall_forall in HF.
    eapply F64.leb_not_nan_r, (HF c Hc). }
  exists (sorted rest).
  assert (Hs : sorted (0 :: rest) = 0 :: sorted rest).
  { change (sorted (0 :: rest)) with (insert 0 (sorted rest)).
    apply insert_least, sorted_Forall, Hpos. }
  split; [exact Hs|]. split; [|split].
  - rewrite <- Hs. apply sorted_StronglySorted; [|exact HD].
    constructor; [reflexivity | exact Hnum].
  - assert (Hall : Forall (fun c => (c <? d) = true) (0 :: sorted rest)).
    { constructor; [exact Hd|]. apply sorted_Forall.
      eapply Forall_impl; [|exact HF]. intros c [_ Hc]. exact Hc. }
    rewrite Forall_forall in Hall. apply Hall, last_cons_In.
  - simpl. rewrite sorted_length. reflexivity.
Qed.

(** The loop ends as soon as a running sum is not below the duration. *)
Lemma loop_terminates (d i : float) (n : nat) :
  forall ts cursor,
    (cursor_after n i cursor <? d) = false ->
    exists ts', build_timestamps_loop n d i ts cursor = Some ts'.
Proof.
  induction n as [|n IH]; intros ts cursor H; simpl in *.
  - rewrite H. eexists; reflexivity.
  - destruct (cursor <? d); [apply IH, H | eexists; reflexivity].
Qed.

Lemma loop_length (d i : float) (fuel : nat) :
  forall ts cursor ts',
    build_timestamps_loop fuel d i ts cursor = Some ts' ->
    (length ts <= length ts' <= length ts + fuel)%nat.
Proof.
  induction fuel as [|fuel IH]; intros ts cursor ts'; simpl;
    destruct (cursor <? d); intros H; try discriminate;
    try (injection H as <-; lia).
  apply IH in H. unfold add in H.
  destruct (mem cursor ts); [lia|]. rewrite length_app in H. simpl in H. lia.
Qed.

Lemma loop_fuel_le (d i : float) (n fuel : nat) :
  (n <= fuel)%nat ->
  forall ts cursor ts',
    build_timestamps_loop n d i ts cursor = Some ts' ->
    build_timestamps_loop fuel d i ts cursor = Some ts'.
Proof.
  intros Hle. revert n Hle.
  induction fuel as [|fuel IH]; intros n Hle ts cursor ts'.
  - assert (n = O) by lia. subst. trivial.
  - destruct n as [|n]; simpl; destruct (cursor <? d); trivial;
      try discriminate.
    apply IH. lia.
Qed.

End Scheduler.

(** ** Facts about the sort of strings *)

Module PyStrFacts.
Import PyStr.

Lemma str_ltb_lt (a b : string) : String.ltb a b = true <-> String_as_OT.lt a b.
Proof.
  unfold String.ltb. rewrite <- String_as_OT.cmp_lt. unfold String_as_OT.cmp.
  destruct (String.compare a b); split; congruence.
Qed.

Lemma str_ltb_trans (a b c : string) :
  String.ltb a b = true -> String.ltb b c = true -> String.ltb a c = true.
Proof. rewrite !str_ltb_lt. apply String_as_OT.lt_trans. Qed.

Lemma str_ltb_asym (a b : string) : String.ltb a b = true -> String.ltb b a = false.
Proof.
  unfold String.ltb. rewrite (String.compare_antisym a b).
  destruct (String.compare b a); simpl; congruence.
Qed.

Lemma str_ltb_total (a b : string) :
  String.ltb a b = false -> String.ltb b a = false -> a = b.
Proof.
  unfold String.ltb. rewrite (String.compare_antisym a b).
  destruct (String.compare b a) eqn:E; simpl; try congruence.
  intros _ _. symmetry. apply String.compare_eq_iff, E.
Qed.

(** Two insertions commute: the sort does not depend on the order in
    which the directory yields its entries. *)
Lemma insert_comm (a b : string) (l : list string) :
  insert a (insert b l) = insert b (insert a l).
Proof.
  induction l as [|y l IH]; simpl.
  - destruct (String.ltb a b) eqn:Hab, (String.ltb b a) eqn:Hba; try reflexivity.
    + rewrite (str_ltb_asym a b Hab) in Hba. discriminate.
    + rewrite (str_ltb_total a b Hab Hba). reflexivity.
  - destruct (String.ltb b y) eqn:Hby, (String.ltb a y) eqn:Hay; simpl;
      rewrite ?Hby, ?Hay.
    + destruct (String.ltb a b) eqn:Hab, (String.ltb b a) eqn:Hba;
        try reflexivity.
      * rewrite (str_ltb_asym a b Hab) in Hba. discriminate.
      * rewrite (str_ltb_total a b Hab Hba). reflexivity.
    + destruct (String.ltb a b) eqn:Hab; [|reflexivity].
      rewrite (str_ltb_trans a b y Hab Hby) in Hay. discriminate.
    + destruct (String.ltb b a) eqn:Hba; [|reflexivity].
      rewrite (str_ltb_trans b a y Hba Hay) in Hby. discriminate.
    + rewrite IH. reflexivity.
Qed.

Lemma sorted_Permutation (l l' : list string) :
  Permutation l l' -> sorted l = sorted l'.
Proof.
  unfold sorted. induction 1 as [|x l l' _ IH|x y l|l l' l'' _ IH _ IH']; simpl.
  - reflexivity.
  - rewrite IH. reflexivity.
  - apply insert_comm.
  - congruence.
Qed.

End PyStrFacts.

(** ** Ceilings

    The ceiling of a quotient of integers, and of a finite binary64
    number; how an integer compares with such a number. *)

Module Ceiling.

Local Open Scope Z_scope.

Lemma ceil_div_gt (a b c : Z) : 0 < b -> (c < ceil_div a b <-> c * b < a).
Proof.
  intros Hb. unfold ceil_div. split; intros H.
  - assert (H1 : (c + 1) <= (a + b - 1) / b) by lia.
    assert (H2 : b * ((a + b - 1) / b) <= a + b - 1)
      by (apply Z.mul_div_le; lia).
    nia.
  - assert (H1 : c + 1 <= (a + b - 1) / b); [|lia].
    apply Z.div_le_lower_bound; [lia|]. nia.
Qed.

Lemma ceil_div_scale (a b u : Z) :
  0 < b -> 0 < u -> ceil_div (a * u) (b * u) = ceil_div a b.
Proof.
  intros Hb Hu. unfold ceil_div. symmetry.
  apply Z.div_unique_pos with (r := ((a + b - 1) mod b) * u + (u - 1)).
  - pose proof (Z.mod_pos_bound (a + b - 1) b ltac:(lia)). nia.
  - pose proof (Z.div_mod (a + b - 1) b ltac:(lia)). nia.
Qed.

Lemma ceil_div_nested (a t I : Z) :
  0 < t -> 0 < I -> ceil_div (ceil_div a t) I = ceil_div a (t * I).
Proof.
  intros Ht HI. unfold ceil_div.
  replace (a + t - 1) with (a - 1 + 1 * t) by lia.
  rewrite Z.div_add by lia.
  replace ((a - 1) / t + 1 + I - 1) with ((a - 1) / t + 1 * I) by lia.
  rewrite Z.div_add by lia.
  replace (a + t * I - 1) with (a - 1 + 1 * (t * I)) by lia.
  rewrite Z.div_add by nia.
  rewrite Z.div_div by lia. reflexivity.
Qed.

Lemma valid_finite (x : float) (s : bool) (m : positive) (e : Z) :
  Prim2SF x = S754_finite s m e ->
  Zpos m < 2 ^ 53 /\ -1074 <= e /\ (-1074 < e -> 2 ^ 52 <= Zpos m).
Proof.
  intros Hx. pose proof (FloatAxioms.Prim2SF_valid x) as Hv. rewrite Hx in Hv.
  unfold SpecFloat.valid_binary, bounded, canonical_mantissa in Hv.
  apply andb_true_iff in Hv. destruct Hv as [Hc _].
  apply Z.eqb_eq in Hc. unfold fexp, emin in Hc.
  rewrite F64Int.digits2_pos_log2 in Hc.
  change FloatOps.prec with 53 in Hc. change FloatOps.emax with 1024 in Hc.
  assert (HL : Z.log2 (Zpos m) <= 52) by lia.
  pose proof (Z.log2_spec (Zpos m) ltac:(lia)) as [Hlo Hhi].
  split; [|split].
  - eapply Z.lt_le_trans; [exact Hhi|]. apply Z.pow_le_mono_r; lia.
  - lia.
  - intros He. assert (Z.log2 (Zpos m) = 52) by lia. 
    replace 52 with (Z.log2 (Zpos m)) by assumption. exact Hlo.
Qed.

Lemma pow2_split (a b : Z) : 0 <= b <= a -> 2 ^ a = 2 ^ b * 2 ^ (a - b).
Proof. intros H. rewrite <- Z.pow_add_r by lia. f_equal. lia. Qed.

Lemma pow2_ge_2 (k : Z) : 1 <= k -> 2 <= 2 ^ k.
Proof. intros H. change 2 with (2 ^ 1) at 1. apply Z.pow_le_mono_r; lia. Qed.

Lemma is_int_ltb_finite (cursor d : float) (c : Z) (m : positive) (e : Z) :
  is_int cursor c -> 0 < c < 2 ^ 53 ->
  Prim2SF d = S754_finite false m e ->
  (cursor <? d)%float = (c <? ceiling m e).
Proof.
  unfold is_int. intros Hc Hrange Hd.
  destruct (valid_finite d false m e Hd) as (Hm & _ & Hnorm).
  rewrite FloatAxioms.ltb_spec, Hc, Hd.
  destruct (F64Int.SF_of_Z_pos c Hrange) as (mc & -> & Hmc & HL).
  unfold SFltb. rewrite F64.SFcompare_finite.
  pose proof (Z.log2_spec c ltac:(lia)) as [Hlo Hhi].
  set (L := Z.log2 c) in *. set (a := 52 - L) in *.
  assert (Ha : 0 <= a <= 52) by (unfold a; lia).
  assert (Hpa : 0 < 2 ^ a) by (apply Z.pow_pos_nonneg; lia).
  assert (Hmc52 : 2 ^ 52 <= Zpos mc < 2 ^ 53).
  { rewrite Hmc. split.
    - rewrite (pow2_split 52 L) by lia. fold a. nia.
    - replace 53 with (Z.succ L + a) by (unfold a; lia).
      rewrite Z.pow_add_r by lia. nia. }
  replace (L - 52) with (- a) by (unfold a; lia).
  assert (H53 : 2 ^ 53 = 2 * 2 ^ 52) by reflexivity.
  rewrite H53 in Hm, Hmc52, Hrange. clear H53.
  assert (Hp52 : 0 < 2 ^ 52) by reflexivity.
  generalize dependent (2 ^ 52). intros P Hm Hrange Hnorm Hmc52 HP.
  unfold ceiling.
  destruct (Z.leb_spec 0 e) as [He|He].
  - assert (Hpe : 0 < 2 ^ e) by (apply Z.pow_pos_nonneg; lia).
    specialize (Hnorm ltac:(lia)).
    destruct (lex (- a) mc e m) eqn:Hlex; F64.lex_facts; symmetry.
    + apply Z.ltb_ge. destruct Hlex as [Hae Hmm].
      replace (2 ^ a) with 1 in Hmc by (replace a with 0 by lia; reflexivity).
      replace (2 ^ e) with 1 by (replace e with 0 by lia; reflexivity). lia.
    + apply Z.ltb_lt. destruct Hlex as [Hae | [Hae Hmm]].
      * destruct (Z.eq_dec e 0) as [->|Hne].
        -- change (2 ^ 0) with 1. pose proof (pow2_ge_2 a ltac:(lia)). nia.
        -- pose proof (pow2_ge_2 e ltac:(lia)). nia.
      * replace (2 ^ a) with 1 in Hmc by (replace a with 0 by lia; reflexivity).
        replace (2 ^ e) with 1 by (replace e with 0 by lia; reflexivity). lia.
    + apply Z.ltb_ge. destruct Hlex as [Hae | [Hae Hmm]]; [lia|].
      replace (2 ^ a) with 1 in Hmc by (replace a with 0 by lia; reflexivity).
      replace (2 ^ e) with 1 by (replace e with 0 by lia; reflexivity). lia.
  - remember (- e) as b eqn:Eb. assert (Hb : 0 < b) by lia.
    assert (Hpb : 0 < 2 ^ b) by (apply Z.pow_pos_nonneg; lia).
    replace e with (- b) in * by lia. clear Eb.
    destruct (lex (- a) mc (- b) m) eqn:Hlex; F64.lex_facts; symmetry.
    + apply Z.ltb_ge. destruct Hlex as [Hae Hmm].
      assert (Eab : b = a) by lia. rewrite Eab in *.
      assert (~ c < ceil_div (Z.pos m) (2 ^ a)); [|lia].
      rewrite ceil_div_gt by lia. lia.
    + apply Z.ltb_lt. apply ceil_div_gt; [lia|].
      destruct Hlex as [Hae | [Hae Hmm]].
      * assert (Hlt : b < a) by lia.
        specialize (Hnorm ltac:(lia)).
        rewrite (pow2_split a b) in Hmc by lia.
        pose proof (pow2_ge_2 (a - b) ltac:(lia)). nia.
      * assert (Eab : b = a) by lia. rewrite Eab in *. lia.
    + apply Z.ltb_ge.
      assert (~ c < ceil_div (Z.pos m) (2 ^ b)); [|lia].
      rewrite ceil_div_gt by lia.
      destruct Hlex as [Hae | [Hae Hmm]].
      * assert (Hlt : a < b) by lia.
        rewrite (pow2_split b a) by lia.
        pose proof (pow2_ge_2 (b - a) ltac:(lia)). nia.
      * assert (Eab : b = a) by lia. rewrite Eab in *. lia.
Qed.

Lemma ceiling_pos (m : positive) (e : Z) : 0 < ceiling m e.
Proof.
  unfold ceiling. destruct (Z.leb_spec 0 e) as [He|He].
  - apply Z.mul_pos_pos; [lia | apply Z.pow_pos_nonneg; lia].
  - apply ceil_div_gt; [apply Z.pow_pos_nonneg; lia | lia].
Qed.

(** The exact ceiling of the quotient of a finite float by an integer
    float is the ceiling of the quotient of the ceiling of the first by
    the integer. *)
Lemma ratio_ceil_whole_interval (d i : float) (m : positive) (e I : Z) :
  Prim2SF d = S754_finite false m e -> is_int i I -> 0 < I < 2 ^ 53 ->
  ratio_ceil d i = Some (ceil_div (ceiling m e) I).
Proof.
  unfold is_int, ratio_ceil. intros Hd Hi HI. rewrite Hd, Hi.
  destruct (F64Int.SF_of_Z_pos I HI) as (mi & -> & Hmi & HLi).
  f_equal. rewrite Hmi.
  set (ei := Z.log2 I - 52). set (e' := Z.min e ei).
  assert (He' : e' <= e /\ e' <= ei /\ ei <= 0) by (unfold e', ei; lia).
  replace (I * 2 ^ (52 - Z.log2 I) * 2 ^ (ei - e')) with (I * 2 ^ (- e'))
    by (rewrite <- Z.mul_assoc, <- Z.pow_add_r by (unfold ei in *; lia);
        do 2 f_equal; unfold ei; lia).
  unfold ceiling. destruct (Z.leb_spec 0 e) as [He|He].
  - replace (2 ^ (e - e')) with (2 ^ e * 2 ^ (- e'))
      by (rewrite <- Z.pow_add_r by lia; f_equal; lia).
    rewrite Z.mul_assoc. apply ceil_div_scale; [lia|].
    apply Z.pow_pos_nonneg; lia.
  - replace (2 ^ (- e')) with (2 ^ (- e) * 2 ^ (e - e'))
      by (rewrite <- Z.pow_add_r by lia; f_equal; lia).
    rewrite Z.mul_assoc, ceil_div_scale.
    + rewrite ceil_div_nested; [f_equal; lia | apply Z.pow_pos_nonneg; lia | lia].
    + apply Z.mul_pos_pos; [lia | apply Z.pow_pos_nonneg; lia].
    + apply Z.pow_pos_nonneg; lia.
Qed.

End Ceiling.

(** ** The schedule of whole seconds

    When the interval is an integer, and the duration compares with the
    integers as the integer [D] does, with [D + I <= 2^53], no running sum
    is rounded. *)

Module WholeSeconds.
Import PySet.

Local Open Scope Z_scope.

Lemma SFcompare_of_Z0 (a b : Z) :
  0 <= a < 2 ^ 53 -> 0 <= b < 2 ^ 53 ->
  SFcompare (SF_of_Z a) (SF_of_Z b) = Some (a ?= b).
Proof.
  intros Ha Hb.
  destruct (Z.eq_dec a 0) as [->|Ha0], (Z.eq_dec b 0) as [->|Hb0].
  - reflexivity.
  - destruct (F64Int.SF_of_Z_pos b) as (mb & -> & _); [lia|].
    change (SF_of_Z 0) with (S754_zero false). cbn [SFcompare].
    f_equal. symmetry. apply Z.compare_lt_iff. lia.
  - destruct (F64Int.SF_of_Z_pos a) as (ma & -> & _); [lia|].
    change (SF_of_Z 0) with (S754_zero false). cbn [SFcompare].
    f_equal. symmetry. apply Z.compare_gt_iff. lia.
  - apply F64Int.SFcompare_of_Z; lia.
Qed.

Lemma is_int_ltb (x y : float) (a b : Z) :
  is_int x a -> is_int y b -> 0 <= a < 2 ^ 53 -> 0 <= b < 2 ^ 53 ->
  (x <? y)%float = (a <? b).
Proof.
  unfold is_int. intros Hx Hy Ha Hb.
  rewrite FloatAxioms.ltb_spec, Hx, Hy. unfold SFltb, Z.ltb.
  rewrite (SFcompare_of_Z0 a b Ha Hb). reflexivity.
Qed.

Lemma is_int_eqb (x y : float) (a b : Z) :
  is_int x a -> is_int y b -> 0 <= a < 2 ^ 53 -> 0 <= b < 2 ^ 53 ->
  (x =? y)%float = (a =? b).
Proof.
  unfold is_int. intros Hx Hy Ha Hb.
  rewrite FloatAxioms.eqb_spec, Hx, Hy. unfold SFeqb.
  rewrite (SFcompare_of_Z0 a b Ha Hb).
  destruct (Z.compare_spec a b) as [->|H|H].
  - symmetry. apply Z.eqb_refl.
  - symmetry. apply Z.eqb_neq. lia.
  - symmetry. apply Z.eqb_neq. lia.
Qed.

Lemma is_int_add (x y : float) (a b : Z) :
  is_int x a -> is_int y b -> 0 < a -> 0 < b -> a + b < 2 ^ 53 ->
  is_int (x + y)%float (a + b).
Proof.
  unfold is_int. intros Hx Hy Ha Hb Hab.
  rewrite FloatAxioms.add_spec, Hx, Hy. apply F64Int.SF64add_exact; assumption.
Qed.

Lemma below_mem (c : Z) (ts : list float) (cursor : float) :
  is_int cursor c -> 0 < c < 2 ^ 53 -> below c ts -> mem cursor ts = false.
Proof.
  intros Hc Hrange. unfold mem. induction 1 as [|x ts (n & Hn & Hlt) _ IH]; simpl.
  - reflexivity.
  - rewrite (is_int_eqb x cursor n c Hn Hc) by lia.
    replace (n =? c) with false by (symmetry; apply Z.eqb_neq; lia).
    exact IH.
Qed.

Section Loop.

Variables (d i : float) (D I : Z).
Hypothesis Hd : forall (cursor : float) (c : Z),
    is_int cursor c -> 0 < c < 2 ^ 53 -> (cursor <? d)%float = (c <? D).
Hypothesis Hi : is_int i I.
Hypothesis HI : 0 < I.
Hypothesis HD : 0 < D.
Hypothesis Hsum : D + I <= 2 ^ 53.

Lemma turns_done (c : Z) : D <= c -> turns D I c = 0.
Proof.
  intros Hc. unfold turns, ceil_div.
  assert ((D - c + I - 1) / I <= 0); [|lia].
  apply Z.lt_succ_r, Z.div_lt_upper_bound; lia.
Qed.

Lemma turns_step (c : Z) : c < D -> turns D I c = 1 + turns D I (c + I).
Proof.
  intros Hc. unfold turns, ceil_div.
  replace (D - c + I - 1) with (D - (c + I) + I - 1 + 1 * I) by lia.
  rewrite Z.div_add by lia.
  assert (0 <= (D - (c + I) + I - 1) / I); [|lia].
  apply Z.div_pos; lia.
Qed.

Lemma loop_exact (fuel : nat) :
  forall (c : Z) (ts : list float) (cursor : float),
    is_int cursor c -> 0 < c < D + I -> below c ts ->
    turns D I c <= Z.of_nat fuel ->
    exists ts',
      build_timestamps_loop fuel d i ts cursor = Some ts' /\
      Z.of_nat (length ts') = Z.of_nat (length ts) + turns D I c.
Proof.
  induction fuel as [|fuel IH]; intros c ts cursor Hc Hrange Hts Hfuel;
    cbn [build_timestamps_loop];
    rewrite (Hd cursor c Hc) by lia;
    destruct (Z.ltb_spec c D) as [Hlt|Hge].
  - rewrite (turns_step c Hlt) in Hfuel.
    pose proof (Z.le_max_l 0 (ceil_div (D - (c + I)) I)). unfold turns in Hfuel.
    lia.
  - exists ts. rewrite (turns_done c Hge). split; [reflexivity | lia].
  - unfold add. rewrite (below_mem c ts cursor Hc) by (assumption || lia).
    destruct (IH (c + I) (ts ++ [cursor])%list (cursor + i)%float)
      as (ts' & Hrun & Hlen).
    + apply is_int_add; (assumption || lia).
    + lia.
    + apply Forall_app. split.
      * eapply Forall_impl; [|exact Hts]. intros x (n & Hn & Hlt').
        exists n. split; [exact Hn | lia].
      * repeat constructor. exists c. split; [exact Hc | lia].
    + rewrite (turns_step c Hlt) in Hfuel. lia.
    + exists ts'. split; [exact Hrun|].
      rewrite Hlen, length_app, (turns_step c Hlt), Nat2Z.inj_add.
      cbn [length]. lia.
  - exists ts. rewrite (turns_done c Hge). split; [reflexivity | lia].
Qed.

End Loop.

(** Why the loop runs on fuel: with a duration of [2^54] and an interval
    of 1.0 the running sum reaches [2^53], where adding 1.0 changes
    nothing, and the loop never ends. *)
Lemma loop_absorbed (fuel : nat) :
  forall ts, build_timestamps_loop fuel 0x1p54 1 ts 0x1p53 = None.
Proof.
  induction fuel as [|fuel IH]; intros ts; cbn [build_timestamps_loop];
    change (0x1p53 <? 0x1p54)%float with true; cbn iota; [reflexivity|].
  change (0x1p53 + 1)%float with 0x1p53%float. apply IH.
Qed.

Lemma loop_never_ends (fuel : nat) :
  forall (c : Z) (ts : list float) (cursor : float),
    is_int cursor c -> 0 < c < 2 ^ 53 ->
    build_timestamps_loop fuel 0x1p54 1 ts cursor = None.
Proof.
  assert (H1 : is_int 1 1) by reflexivity.
  induction fuel as [|fuel IH]; intros c ts cursor Hc Hrange;
    cbn [build_timestamps_loop];
    (replace (cursor <? 0x1p54)%float with true;
     [|symmetry; rewrite FloatAxioms.ltb_spec, Hc;
       destruct (F64Int.SF_of_Z_pos c Hrange) as (m & -> & _ & HL);
       change (Prim2SF 0x1p54) with (S754_finite false 4503599627370496 2);
       unfold SFltb; rewrite F64.SFcompare_finite; unfold lex;
       replace (Z.log2 c - 52 ?= 2) with Lt
         by (symmetry; apply Z.compare_lt_iff; lia);
       reflexivity]);
    [reflexivity|].
  destruct (Z.eq_dec c (2 ^ 53 - 1)) as [->|Hne].
  - assert (Hcursor : cursor = 0x1.fffffffffffffp52%float)
      by (apply Prim2SF_inj; rewrite Hc; reflexivity).
    subst cursor. change (0x1.fffffffffffffp52 + 1)%float with 0x1p53%float.
    apply loop_absorbed.
  - apply (IH (c + 1)); [|lia].
    apply is_int_add; (assumption || lia).
Qed.

End WholeSeconds.

(** C1: for every duration > 0 and interval > 0, the list that
    [build_timestamps] returns is strictly increasing, starts with 0.0 and
    ends below the duration; and it does return one as soon as the fuel
    covers the turns that the running sum takes to reach the duration. *)
Theorem build_timestamps_increasing (fuel : nat) (duration interval : float) :
  (0 <? duration) = true -> (0 <? interval) = true ->
  (forall r, build_timestamps fuel duration interval = Some r ->
             exists rest,
               r = inr (0 :: rest) /\
               StronglySorted flt (0 :: rest) /\
               (last (0 :: rest) 0 <? duration) = true) /\
  (forall n, (n <= fuel)%nat ->
             (cursor_after n interval interval <? duration) = false ->
             build_timestamps fuel duration interval <> None).
Proof.
  intros Hd Hi. unfold build_timestamps.
  rewrite (F64.ltb_not_leb _ _ Hi), (F64.ltb_not_leb _ _ Hd). split.
  - intros r.
    destruct (build_timestamps_loop fuel duration interval [0] interval)
      as [ts|] eqn:Hloop; [|discriminate].
    intros H. inversion H; subst; clear H.
    apply Scheduler.loop_scheduled in Hloop.
    + destruct (Scheduler.scheduled_sorted _ _ Hd Hloop)
        as (rest & -> & Hs & Hl & _).
      exists rest. repeat split; assumption.
    + apply F64.ltb_leb, Hi.
    + exists []. repeat split; repeat constructor.
    + apply F64.ltb_leb, Hi.
  - intros n Hle Hn.
    destruct (Scheduler.loop_terminates duration interval n [0] interval Hn)
      as [ts Hts].
    rewrite (Scheduler.loop_fuel_le _ _ _ _ Hle _ _ _ Hts). discriminate.
Qed.

Lemma build_timestamps_increasing_witness :
  (forall r, build_timestamps 4 95 30 = Some r ->
             exists rest,
               r = inr (0 :: rest) /\
               StronglySorted flt (0 :: rest) /\
               (last (0 :: rest) 0 <? 95) = true) /\
  (forall n, (n <= 4)%nat ->
             (cursor_after n 30 30 <? 95) = false ->
             build_timestamps 4 95 30 <> None).
Proof. apply build_timestamps_increasing; reflexivity. Defined.

(** The other side of the fuel in C1: a duration of [2^54] seconds with an
    interval of 1.0 is a schedule that [build_timestamps] never returns;
    the cursor stops moving at [2^53]. *)
Lemma build_timestamps_absorbed (fuel : nat) :
  (0 <? 0x1p54) = true /\ (0 <? 1) = true /\
  build_timestamps fuel 0x1p54 1 = None.
Proof.
  split; [reflexivity|]. split; [reflexivity|].
  unfold build_timestamps.
  change (1 <=? 0) with false. change (0x1p54 <=? 0) with false. cbn iota.
  rewrite (WholeSeconds.loop_never_ends fuel 1 [0] 1); [reflexivity| |].
  - reflexivity.
  - split; reflexivity.
Qed.

(** C6: for every duration and every interval <= 0, [build_timestamps]
    raises the [ValueError] of an invalid interval and returns no list. *)
Theorem build_timestamps_rejects_interval
        (fuel : nat) (duration interval : float) :
  (interval <=? 0) = true ->
  build_timestamps fuel duration interval
  = Some (inl (ValueError "time_interval must be greater than 0")).
Proof. intros H. unfold build_timestamps. rewrite H. reflexivity. Qed.

Lemma build_timestamps_rejects_interval_witness :
  build_timestamps 0 95 (-30)
  = Some (inl (ValueError "time_interval must be greater than 0")).
Proof. apply build_timestamps_rejects_interval. reflexivity. Defined.

(** C7, amended: when the interval is a positive integer, whatever the
    finite duration > 0, with [ceiling duration + interval <= 2^53], so that
    every running sum is exact, [build_timestamps] returns, and the number
    of its timestamps is the ceiling of [duration / interval]. *)
Theorem build_timestamps_whole_interval_count
        (fuel : nat) (duration interval : float)
        (m : positive) (e : Z) (I : Z) :
  Prim2SF duration = S754_finite false m e ->
  Prim2SF interval = SF_of_Z I ->
  (0 < I)%Z -> (ceiling m e + I <= 2 ^ 53)%Z ->
  ((ceiling m e - 1) / I <= Z.of_nat fuel)%Z ->
  exists l,
    build_timestamps fuel duration interval = Some (inr l) /\
    Z.of_nat (length l) = ceil_div (ceiling m e) I /\
    ratio_ceil duration interval = Some (Z.of_nat (length l)).
Proof.
  intros Hd Hi HI Hsum Hfuel.
  pose proof (Ceiling.ceiling_pos m e) as HD.
  set (D := ceiling m e) in *.
  assert (H0 : is_int 0 0) by reflexivity.
  assert (Hipos : (0 <? interval) = true).
  { rewrite (WholeSeconds.is_int_ltb 0 interval 0 I H0 Hi) by lia.
    apply Z.ltb_lt, HI. }
  assert (Hdpos : (0 <? duration) = true).
  { rewrite FloatAxioms.ltb_spec, Hd. reflexivity. }
  assert (Hturns : turns D I I = ((D - 1) / I)%Z).
  { unfold turns, ceil_div.
    replace (D - I + I - 1)%Z with (D - 1)%Z by lia.
    apply Z.max_r, Z.div_pos; lia. }
  destruct (WholeSeconds.loop_exact duration interval D I
              (fun cursor c Hc Hrange =>
                 Ceiling.is_int_ltb_finite cursor duration c m e Hc Hrange Hd)
              Hi HI Hsum fuel I [0] interval Hi) as (ts & Hrun & Hlen).
  - lia.
  - repeat constructor. exists 0%Z. split; [exact H0 | lia].
  - rewrite Hturns. exact Hfuel.
  - assert (Hcount : Z.of_nat (length (PySet.sorted ts)) = ceil_div D I).
    { rewrite PySetFacts.sorted_length, Hlen, Hturns. unfold ceil_div.
      replace (D + I - 1)%Z with (D - 1 + 1 * I)%Z by lia.
      rewrite Z.div_add by lia. simpl length. lia. }
    exists (PySet.sorted ts). unfold build_timestamps.
    rewrite (F64.ltb_not_leb _ _ Hipos), (F64.ltb_not_leb _ _ Hdpos), Hrun.
    split; [reflexivity|]. split; [exact Hcount|].
    rewrite Hcount. apply Ceiling.ratio_ceil_whole_interval; (assumption || lia).
Qed.

Lemma build_timestamps_whole_interval_count_witness :
  exists l,
    build_timestamps 4 0x1.7ep6 30 = Some (inr l) /\
    Z.of_nat (length l) = ceil_div (ceiling 6720215068966912 (-46)) 30 /\
    ratio_ceil 0x1.7ep6 30 = Some (Z.of_nat (length l)).
Proof.
  apply (build_timestamps_whole_interval_count 4 0x1.7ep6 30
           6720215068966912 (-46) 30);
    vm_compute; (reflexivity || discriminate).
Defined.

(** The claim C7 as it stands fails on a duration of 1.0 with an interval
    of 0.1: the tenth running sum is 0.9999999999999999, still below the
    duration, and the schedule has eleven timestamps, where the ceiling of
    the quotient is ten, whether it is taken on the exact values or on the
    rounded quotient 10.0. *)
Lemma build_timestamps_exceeds_ceiling :
  (0 <? 1) = true /\ (0 <? 0x1.999999999999ap-4) = true /\
  exists l,
    build_timestamps 10 1 0x1.999999999999ap-4 = Some (inr l) /\
    length l = 11%nat /\
    last l 0 = 0x1.fffffffffffffp-1 /\
    ratio_ceil 1 0x1.999999999999ap-4 = Some 10%Z /\
    (1 / 0x1.999999999999ap-4 =? 10) = true.
Proof.
  split; [reflexivity|]. split; [reflexivity|].
  eexists. split; [vm_compute; reflexivity|].
  repeat split; vm_compute; reflexivity.
Qed.

(** ** The job runner *)

Section JobRunner.

Variable host : Host.

Local Open Scope string_scope.
Local Open Scope Z_scope.

Ltac run_monad :=
  unfold frame_error, render_checked, extract_one_frame, extract_last_frame,
    probe_duration_seconds, run_build_timestamps, make_dir, exists_nonempty,
    run_command, attempt, bind, ret, raise in *; simpl in *.

(** A render followed by its check ends in exactly one of the three ways
    that [convert_video] accounts for, having run one command. *)
Lemma frame_error_one (v : PyPath.Path) (t : float) (p : PyPath.Path)
      (s : Sys host) :
  exists o s',
    frame_error (extract_one_frame v t p) p s = (Returned o, s') /\
    log s' = (log s ++ [Run (extract_one_frame_command v t p)])%list.
Proof.
  run_monad.
  destruct (subprocess_run host _ (world s)) as [[e|result] w]; simpl.
  - eexists _, _; split; reflexivity.
  - destruct (returncode result =? 0); simpl.
    + destruct (path_exists host p w); simpl.
      * destruct (st_size host p w) as [e|size]; simpl.
        -- eexists _, _; split; reflexivity.
        -- destruct (0 <? size); eexists _, _; split; reflexivity.
      * eexists _, _; split; reflexivity.
    + eexists _, _; split; reflexivity.
Qed.

Lemma frame_error_last (v p : PyPath.Path) (s : Sys host) :
  exists o s',
    frame_error (extract_last_frame v p) p s = (Returned o, s') /\
    log s' = (log s ++ [Run (extract_last_frame_command v p)])%list.
Proof.
  run_monad.
  destruct (subprocess_run host _ (world s)) as [[e|result] w]; simpl.
  - eexists _, _; split; reflexivity.
  - destruct (returncode result =? 0); simpl.
    + destruct (path_exists host p w); simpl.
      * destruct (st_size host p w) as [e|size]; simpl.
        -- eexists _, _; split; reflexivity.
        -- destruct (0 <? size); eexists _, _; split; reflexivity.
      * eexists _, _; split; reflexivity.
    + eexists _, _; split; reflexivity.
Qed.

(** [render_checked] is [frame_error] followed by the update of the two
    accumulators. *)
Lemma render_checked_frame_error (render : M host unit) (p : PyPath.Path)
      (written : Z) (errors : list string) (s s' : Sys host)
      (o : option string) :
  frame_error render p s = (Returned o, s') ->
  render_checked render p written errors s
  = (Returned (bump written o, noted errors o), s').
Proof.
  unfold frame_error, render_checked, bind, ret, attempt.
  destruct (render s) as [[[]|e|] s1]; simpl.
  - destruct (exists_nonempty p s1) as [[[|]|e|] s2]; simpl;
      intros H; inversion H; subst; reflexivity.
  - intros H; inversion H; subst; reflexivity.
  - discriminate.
Qed.

Lemma written_count_cons (o : option string) (os : list (option string)) :
  written_count (o :: os) = bump 0 o + written_count os.
Proof.
  destruct o; unfold written_count, bump; cbn [filter is_written length]; lia.
Qed.

Lemma error_messages_cons (errors : list string) (o : option string)
      (os : list (option string)) :
  (errors ++ error_messages (o :: os))%list
  = (noted errors o ++ error_messages os)%list.
Proof.
  destruct o as [e|]; simpl; [|reflexivity].
  rewrite <- app_assoc. reflexivity.
Qed.

(** The loop over the timestamps attempts every one of them, in order,
    whatever became of the earlier ones. *)
Lemma render_timestamps_frame_errors (v d : PyPath.Path) (ts : list float) :
  forall (index written : Z) (errors : list string) (s : Sys host),
  exists os s',
    frame_errors v d index ts s = (Returned os, s') /\
    length os = length ts /\
    log s' = (log s ++ frame_commands v d index ts)%list /\
    render_timestamps v d index ts written errors s
    = (Returned (written + written_count os,
                 (errors ++ error_messages os)%list), s').
Proof.
  induction ts as [|t ts IH]; intros index written errors s.
  - exists [], s. simpl. unfold ret, written_count. simpl.
    rewrite !app_nil_r, Z.add_0_r. repeat split; reflexivity.
  - destruct (frame_error_one v t (frame_path d index t) s)
      as (o & s1 & Ho & Hlog1).
    destruct (IH (index + 1) (bump written o) (noted errors o) s1)
      as (os & s2 & Hos & Hlen & Hlog2 & Hrun).
    exists (o :: os), s2. simpl.
    unfold bind at 1. fold (frame_path d index t). rewrite Ho.
    unfold bind at 1. rewrite Hos. unfold ret at 1.
    split; [reflexivity|]. split; [simpl; congruence|]. split.
    + rewrite Hlog2, Hlog1, <- app_assoc. reflexivity.
    + unfold bind at 1.
      rewrite (@render_checked_frame_error _ _ written errors _ _ _ Ho), Hrun.
      rewrite written_count_cons.
      change (match o with
              | Some e => e :: error_messages os
              | None => error_messages os
              end) with (error_messages (o :: os)).
      rewrite error_messages_cons.
      unfold bump. destruct (is_written o); do 2 f_equal; f_equal; lia.
Qed.

Lemma written_plus_errors (os : list (option string)) :
  written_count os + Z.of_nat (length (error_messages os))
  = Z.of_nat (length os).
Proof.
  unfold written_count. induction os as [|[e|] os IH]; simpl length in *;
    cbn [filter is_written error_messages length]; lia.
Qed.

Lemma written_count_nonneg (os : list (option string)) :
  0 <= written_count os.
Proof. unfold written_count. lia. Qed.

Lemma written_count_app (os os' : list (option string)) :
  written_count (os ++ os') = written_count os + written_count os'.
Proof.
  unfold written_count. rewrite filter_app, length_app. lia.
Qed.

Lemma error_messages_app (os os' : list (option string)) :
  error_messages (os ++ os') = (error_messages os ++ error_messages os')%list.
Proof.
  induction os as [|[e|] os IH]; simpl; [reflexivity| |exact IH].
  rewrite IH. reflexivity.
Qed.

(** What [convert_video] does once the directory is there, the duration
    is probed and the timestamps are scheduled. *)
Lemma convert_video_success (fuel : nat) (v : PyPath.Path) (interval : float)
      (root : option PyPath.Path) (s s1 s2 : Sys host) (duration : float)
      (timestamps : list float) :
  make_dir (video_output_dir v root) s = (Returned tt, s1) ->
  probe_duration_seconds v s1 = (Returned duration, s2) ->
  build_timestamps fuel duration interval = Some (inr timestamps) ->
  exists os o s3 s4,
    frame_errors v (video_output_dir v root) 1 timestamps s2
    = (Returned os, s3) /\
    frame_error
      (extract_last_frame v
         (last_frame_path (video_output_dir v root) timestamps duration))
      (last_frame_path (video_output_dir v root) timestamps duration) s3
    = (Returned o, s4) /\
    length os = length timestamps /\
    log s4 = (log s2
              ++ frame_commands v (video_output_dir v root) 1 timestamps
              ++ [Run (extract_last_frame_command v
                         (last_frame_path (video_output_dir v root)
                                          timestamps duration))])%list /\
    convert_video fuel v interval root s
    = (Returned (Build_VideoResult v (video_output_dir v root)
                   (Z.of_nat (length timestamps) + 1)
                   (written_count (os ++ [o]))
                   (error_messages (os ++ [o]))), s4).
Proof.
  intros Hdir Hprobe Hsched.
  destruct (render_timestamps_frame_errors v (video_output_dir v root)
              timestamps 1 0 [] s2) as (os & s3 & Hos & Hlen & Hlog & Hrun).
  destruct (frame_error_last v
              (last_frame_path (video_output_dir v root) timestamps duration)
              s3) as (o & s4 & Ho & Hlog').
  exists os, o, s3, s4.
  split; [exact Hos|]. split; [exact Ho|]. split; [exact Hlen|]. split.
  - rewrite Hlog', Hlog, <- app_assoc. reflexivity.
  - unfold convert_video. unfold bind at 1. rewrite Hdir.
    unfold bind at 1. unfold attempt, bind at 1. rewrite Hprobe.
    unfold bind at 1, run_build_timestamps. rewrite Hsched.
    unfold ret at 1. unfold bind at 1. rewrite Hrun.
    unfold bind at 1.
    fold (frame_path (video_output_dir v root)
                     (Z.of_nat (length timestamps) + 1) duration).
    fold (last_frame_path (video_output_dir v root) timestamps duration).
    rewrite (@render_checked_frame_error _ _ (0 + written_count os)
               ([] ++ error_messages os)%list _ _ _ Ho).
    unfold ret. rewrite written_count_app, error_messages_app.
    do 2 f_equal. f_equal.
    + unfold bump, written_count. destruct o; simpl; lia.
    + destruct o; simpl; [reflexivity | rewrite app_nil_r; reflexivity].
Qed.

(** How [convert_video] can return at all: by the early return on a
    failed probe or schedule, or after all the renders. *)
Lemma convert_video_returned (fuel : nat) (v : PyPath.Path) (interval : float)
      (root : option PyPath.Path) (s s' : Sys host) (r : VideoResult) :
  convert_video fuel v interval root s = (Returned r, s') ->
  exists s1, make_dir (video_output_dir v root) s = (Returned tt, s1) /\
  ((exists exc,
      (probe_duration_seconds v s1 = (Raised exc, s') \/
       exists duration,
         probe_duration_seconds v s1 = (Returned duration, s') /\
         build_timestamps fuel duration interval = Some (inl exc)) /\
      r = Build_VideoResult v (video_output_dir v root) 0 0 [str_exn exc])
   \/
   (exists duration timestamps s2,
      probe_duration_seconds v s1 = (Returned duration, s2) /\
      build_timestamps fuel duration interval = Some (inr timestamps))).
Proof.
  unfold convert_video. unfold bind at 1.
  destruct (make_dir (video_output_dir v root) s) as [[[]|e|] s1];
    try discriminate.
  intros H. exists s1. split; [reflexivity|].
  unfold bind at 1, attempt, bind at 1 in H.
  destruct (probe_duration_seconds v s1) as [[duration|e|] s2];
    try discriminate.
  - unfold bind at 1, run_build_timestamps in H.
    destruct (build_timestamps fuel duration interval)
      as [[e|timestamps]|] eqn:Hb; try discriminate.
    + left. exists e. unfold ret in H. inversion H; subst.
      split; [right; exists duration; split; [reflexivity | exact Hb]
             | reflexivity].
    + right. exists duration, timestamps, s2.
      split; [reflexivity | exact Hb].
  - left. exists e. unfold ret in H. inversion H; subst.
    split; [left; reflexivity | reflexivity].
Qed.

Lemma make_dir_log (p : PyPath.Path) (s s1 : Sys host) :
  make_dir p s = (Returned tt, s1) -> log s1 = (log s ++ [Mkdir p])%list.
Proof.
  unfold make_dir. destruct (mkdir host p (world s)) as [[e|[]] w];
    intros H; inversion H; reflexivity.
Qed.

Lemma probe_log (v : PyPath.Path) (s s' : Sys host) (o : outcome float) :
  probe_duration_seconds v s = (o, s') ->
  log s' = (log s ++ [Run (probe_duration_command v)])%list.
Proof.
  unfold probe_duration_seconds, run_command, bind, raise, ret.
  destruct (subprocess_run host _ (world s)) as [[e|result] w];
    [intros H; inversion H; reflexivity|].
  destruct (negb (returncode result =? 0));
    [intros H; inversion H; reflexivity|].
  destruct (float_of_str host _) as [duration|];
    [|intros H; inversion H; reflexivity].
  destruct (negb (is_finite duration) || (duration <? 0)%float);
    intros H; inversion H; reflexivity.
Qed.

Lemma frame_commands_no_last (v d : PyPath.Path) (ts : list float) :
  forall index,
    filter is_last_frame_command (frame_commands v d index ts) = [].
Proof.
  induction ts as [|t ts IH]; intros index; simpl; [reflexivity | apply IH].
Qed.

Lemma last_frame_attempts_app (l l' : list event) :
  last_frame_attempts (l ++ l')
  = (last_frame_attempts l + last_frame_attempts l')%nat.
Proof. unfold last_frame_attempts. rewrite filter_app, length_app. reflexivity. Qed.

Lemma frame_error_names (render : M host unit) (p : PyPath.Path)
      (s s' : Sys host) (e : string) :
  frame_error render p s = (Returned (Some e), s') -> names_frame e p.
Proof.
  unfold frame_error, bind, attempt, ret.
  destruct (render s) as [[[]|exc|] s1]; simpl.
  - destruct (exists_nonempty p s1) as [[[|]|exc|] s2]; simpl;
      intros H; inversion H; subst;
      [left; reflexivity | right; eexists; reflexivity].
  - intros H; inversion H; subst. right; eexists; reflexivity.
  - discriminate.
Qed.

Lemma frame_errors_names (v d : PyPath.Path) (ts : list float) :
  forall (index : Z) (s s' : Sys host) (os : list (option string)),
    frame_errors v d index ts s = (Returned os, s') ->
    forall (k : nat) (e : string),
      nth_error os k = Some (Some e) ->
      exists t, nth_error ts k = Some t /\
                names_frame e (frame_path d (index + Z.of_nat k) t).
Proof.
  induction ts as [|t ts IH]; intros index s s' os; simpl.
  - unfold ret. intros H; inversion H; subst. intros [|k] e; discriminate.
  - unfold bind at 1.
    destruct (frame_error _ _ s) as [[o| |] s1] eqn:Ho; try discriminate.
    unfold bind at 1.
    destruct (frame_errors v d (index + 1) ts s1) as [[os'| |] s2] eqn:Hos;
      try discriminate.
    unfold ret. intros H; inversion H; subst. intros [|k] e Hk.
    + simpl in Hk. inversion Hk; subst. exists t. split; [reflexivity|].
      rewrite Z.add_0_r. eapply frame_error_names, Ho.
    + simpl in Hk. destruct (IH _ _ _ _ Hos k e Hk) as (t' & Ht' & Hn).
      exists t'. split; [exact Ht'|].
      replace (index + Z.of_nat (S k)) with (index + 1 + Z.of_nat k) by lia.
      exact Hn.
Qed.

(** C2: every [VideoResult] that [convert_video] returns has
    [written_frames <= requested_frames]; and when the probe and the
    scheduler both succeed, [requested_frames] is the number of scheduled
    timestamps plus one, for the last-frame render. *)
Theorem convert_video_written_le_requested
        (fuel : nat) (v : PyPath.Path) (interval : float)
        (root : option PyPath.Path) (s s' : Sys host) (r : VideoResult) :
  convert_video fuel v interval root s = (Returned r, s') ->
  written_frames r <= requested_frames r /\
  (forall s1 s2 duration timestamps,
      make_dir (video_output_dir v root) s = (Returned tt, s1) ->
      probe_duration_seconds v s1 = (Returned duration, s2) ->
      build_timestamps fuel duration interval = Some (inr timestamps) ->
      requested_frames r = Z.of_nat (length timestamps) + 1).
Proof.
  intros Hr.
  assert (Hreq : forall s1 s2 duration timestamps,
             make_dir (video_output_dir v root) s = (Returned tt, s1) ->
             probe_duration_seconds v s1 = (Returned duration, s2) ->
             build_timestamps fuel duration interval = Some (inr timestamps) ->
             requested_frames r = Z.of_nat (length timestamps) + 1 /\
             written_frames r <= requested_frames r).
  { intros s1 s2 duration timestamps Hdir Hprobe Hsched.
    destruct (convert_video_success _ _ _ _ _ _ _ _ _ Hdir Hprobe Hsched)
      as (os & o & s3 & s4 & _ & _ & Hlen & _ & Hrun).
    rewrite Hrun in Hr. inversion Hr; subst; simpl. split; [reflexivity|].
    pose proof (written_plus_errors (os ++ [o])) as Hsum.
    rewrite length_app, Hlen in Hsum. simpl in Hsum. lia. }
  split.
  - destruct (convert_video_returned _ _ _ _ _ _ _ Hr)
      as (s1 & Hdir & [(exc & _ & ->) | (duration & timestamps & s2 & Hp & Hb)]).
    + simpl. lia.
    + apply (Hreq _ _ _ _ Hdir Hp Hb).
  - intros s1 s2 duration timestamps Hdir Hprobe Hsched.
    apply (Hreq _ _ _ _ Hdir Hprobe Hsched).
Qed.

(** C3, amended: when the probe and the scheduler succeed,
    [convert_video] runs the last-frame render exactly once, whatever
    list the scheduler returned and whatever became of the renders
    before it; when the probe fails or the scheduler raises, it returns
    without running it. *)
Theorem convert_video_last_frame_once
        (fuel : nat) (v : PyPath.Path) (interval : float)
        (root : option PyPath.Path) (s s1 : Sys host) :
  make_dir (video_output_dir v root) s = (Returned tt, s1) ->
  (forall s2 duration timestamps,
      probe_duration_seconds v s1 = (Returned duration, s2) ->
      build_timestamps fuel duration interval = Some (inr timestamps) ->
      exists r s',
        convert_video fuel v interval root s = (Returned r, s') /\
        last_frame_attempts (log s') = S (last_frame_attempts (log s))) /\
  (forall s2 exc,
      (probe_duration_seconds v s1 = (Raised exc, s2) \/
       exists duration,
         probe_duration_seconds v s1 = (Returned duration, s2) /\
         build_timestamps fuel duration interval = Some (inl exc)) ->
      exists r,
        convert_video fuel v interval root s = (Returned r, s2) /\
        last_frame_attempts (log s2) = last_frame_attempts (log s)).
Proof.
  intros Hdir. split.
  - intros s2 duration timestamps Hprobe Hsched.
    destruct (convert_video_success _ _ _ _ _ _ _ _ _ Hdir Hprobe Hsched)
      as (os & o & s3 & s4 & _ & _ & _ & Hlog & Hrun).
    eexists _, s4. split; [exact Hrun|].
    rewrite Hlog, (probe_log _ _ _ _ Hprobe), (make_dir_log _ _ _ Hdir).
    rewrite !last_frame_attempts_app. unfold last_frame_attempts at 4.
    rewrite frame_commands_no_last.
    change (last_frame_attempts [Mkdir (video_output_dir v root)]) with O.
    change (last_frame_attempts [Run (probe_duration_command v)]) with O.
    change (last_frame_attempts
              [Run (extract_last_frame_command v
                      (last_frame_path (video_output_dir v root)
                                       timestamps duration))]) with 1%nat.
    simpl length. lia.
  - intros s2 exc Hfail. eexists. split.
    + unfold convert_video. unfold bind at 1. rewrite Hdir.
      unfold bind at 1, attempt, bind at 1.
      destruct Hfail as [Hp | (duration & Hp & Hb)]; rewrite Hp.
      * reflexivity.
      * unfold bind at 1, run_build_timestamps. rewrite Hb. reflexivity.
    + assert (Hlog : log s2 = (log s1 ++ [Run (probe_duration_command v)])%list)
        by (destruct Hfail as [Hp | (duration & Hp & _)];
            apply (probe_log _ _ _ _ Hp)).
      rewrite Hlog, (make_dir_log _ _ _ Hdir), !last_frame_attempts_app.
      change (last_frame_attempts [Mkdir (video_output_dir v root)]) with O.
      change (last_frame_attempts [Run (probe_duration_command v)]) with O.
      lia.
Qed.

(** C4: when the probe and the scheduler succeed, a render that fails
    does not end the job: [convert_video] runs the render of every
    scheduled timestamp, in order, then the last-frame render; it counts
    one written frame for every render that succeeded and appends one
    message, naming the frame file, for every one that failed.  In
    particular, when one of four scheduled renders fails and the others
    and the last-frame render succeed, the result has 4 written frames
    of 5 requested and one error message, which names the failed frame
    file. *)
Theorem convert_video_continues_past_failures
        (fuel : nat) (v : PyPath.Path) (interval : float)
        (root : option PyPath.Path) (s s1 s2 : Sys host) (duration : float)
        (timestamps : list float) :
  make_dir (video_output_dir v root) s = (Returned tt, s1) ->
  probe_duration_seconds v s1 = (Returned duration, s2) ->
  build_timestamps fuel duration interval = Some (inr timestamps) ->
  exists os o s3 s4 r,
    frame_errors v (video_output_dir v root) 1 timestamps s2
    = (Returned os, s3) /\
    length os = length timestamps /\
    frame_error
      (extract_last_frame v
         (last_frame_path (video_output_dir v root) timestamps duration))
      (last_frame_path (video_output_dir v root) timestamps duration) s3
    = (Returned o, s4) /\
    convert_video fuel v interval root s = (Returned r, s4) /\
    log s4 = (log s2
              ++ frame_commands v (video_output_dir v root) 1 timestamps
              ++ [Run (extract_last_frame_command v
                         (last_frame_path (video_output_dir v root)
                                          timestamps duration))])%list /\
    requested_frames r = Z.of_nat (length timestamps) + 1 /\
    written_frames r = written_count (os ++ [o]) /\
    errors r = error_messages (os ++ [o]) /\
    (forall k e,
        nth_error os k = Some (Some e) ->
        exists t, nth_error timestamps k = Some t /\
                  names_frame e (frame_path (video_output_dir v root)
                                            (1 + Z.of_nat k) t)) /\
    (length timestamps = 4%nat ->
     length (error_messages os) = 1%nat -> o = None ->
     requested_frames r = 5 /\ written_frames r = 4 /\
     exists k t e,
       errors r = [e] /\ nth_error timestamps k = Some t /\
       names_frame e (frame_path (video_output_dir v root)
                                 (1 + Z.of_nat k) t)).
Proof.
  intros Hdir Hprobe Hsched.
  destruct (convert_video_success _ _ _ _ _ _ _ _ _ Hdir Hprobe Hsched)
    as (os & o & s3 & s4 & Hos & Ho & Hlen & Hlog & Hrun).
  exists os, o, s3, s4. eexists.
  split; [exact Hos|]. split; [exact Hlen|]. split; [exact Ho|].
  split; [exact Hrun|]. split; [exact Hlog|]. simpl.
  split; [reflexivity|]. split; [reflexivity|]. split; [reflexivity|].
  pose proof (frame_errors_names _ _ _ _ _ _ _ Hos) as Hnames.
  split; [exact Hnames|].
  intros H4 H1 ->. rewrite H4. split; [reflexivity|].
  pose proof (written_plus_errors os) as Hsum.
  rewrite H1, Hlen, H4 in Hsum.
  rewrite written_count_app, error_messages_app. simpl.
  split; [change (written_count [None]) with 1; lia|].
  rewrite app_nil_r.
  assert (Hin : forall l : list (option string),
             forall e, In e (error_messages l) ->
                       exists k, nth_error l k = Some (Some e)).
  { induction l as [|[e'|] l IHl]; simpl; intros e He; [tauto| |].
    - destruct He as [<-|He]; [exists O; reflexivity|].
      destruct (IHl e He) as [k Hk]. exists (S k). exact Hk.
    - destruct (IHl e He) as [k Hk]. exists (S k). exact Hk. }
  destruct (error_messages os) as [|e [|]] eqn:He; try discriminate.
  destruct (Hin os e) as [k Hk]; [rewrite He; left; reflexivity|].
  destruct (Hnames k e Hk) as (t & Ht & Hn).
  exists k, t, e. repeat split; assumption.
Qed.

(** C9: when the probe and the scheduler succeed, the result that
    [convert_video] returns has
    [written_frames + len(errors) = requested_frames]: every attempt,
    at a scheduled timestamp or at the last frame, adds one to
    [written] or one message to [errors]. *)
Theorem convert_video_accounts_for_every_frame
        (fuel : nat) (v : PyPath.Path) (interval : float)
        (root : option PyPath.Path) (s s1 s2 : Sys host) (duration : float)
        (timestamps : list float) :
  make_dir (video_output_dir v root) s = (Returned tt, s1) ->
  probe_duration_seconds v s1 = (Returned duration, s2) ->
  build_timestamps fuel duration interval = Some (inr timestamps) ->
  exists r s',
    convert_video fuel v interval root s = (Returned r, s') /\
    requested_frames r = Z.of_nat (length timestamps) + 1 /\
    written_frames r + Z.of_nat (length (errors r)) = requested_frames r.
Proof.
  intros Hdir Hprobe Hsched.
  destruct (convert_video_success _ _ _ _ _ _ _ _ _ Hdir Hprobe Hsched)
    as (os & o & s3 & s4 & _ & _ & Hlen & _ & Hrun).
  eexists _, s4. split; [exact Hrun|]. simpl. split; [reflexivity|].
  rewrite written_plus_errors, length_app, Hlen. simpl. lia.
Qed.

End JobRunner.

Lemma convert_video_written_le_requested_witness :
  (written_frames Scripted.clip_result
   <= requested_frames Scripted.clip_result)%Z /\
  (forall s1 s2 duration timestamps,
      make_dir (video_output_dir Scripted.clip None) Scripted.start
      = (Returned tt, s1) ->
      probe_duration_seconds Scripted.clip s1 = (Returned duration, s2) ->
      build_timestamps 10 duration 30 = Some (inr timestamps) ->
      requested_frames Scripted.clip_result
      = (Z.of_nat (length timestamps) + 1)%Z).
Proof.
  apply (convert_video_written_le_requested Scripted.host 10 Scripted.clip 30
           None Scripted.start (snd Scripted.clip_converted)).
  vm_compute. reflexivity.
Defined.

Lemma convert_video_last_frame_once_witness :
  (forall s2 duration timestamps,
      probe_duration_seconds Scripted.clip Scripted.clip_dir_made
      = (Returned duration, s2) ->
      build_timestamps 10 duration 30 = Some (inr timestamps) ->
      exists r s',
        convert_video 10 Scripted.clip 30 None Scripted.start
        = (Returned r, s') /\
        last_frame_attempts (log s')
        = S (last_frame_attempts (log Scripted.start))) /\
  (forall s2 exc,
      (probe_duration_seconds Scripted.clip Scripted.clip_dir_made
       = (Raised exc, s2) \/
       exists duration,
         probe_duration_seconds Scripted.clip Scripted.clip_dir_made
         = (Returned duration, s2) /\
         build_timestamps 10 duration 30 = Some (inl exc)) ->
      exists r,
        convert_video 10 Scripted.clip 30 None Scripted.start
        = (Returned r, s2) /\
        last_frame_attempts (log s2)
        = last_frame_attempts (log Scripted.start)).
Proof.
  apply (convert_video_last_frame_once Scripted.host 10 Scripted.clip 30 None
           Scripted.start Scripted.clip_dir_made).
  vm_compute. reflexivity.
Defined.

(** The claim C3 as it stands fails on a video that [ffprobe] cannot read:
    [convert_video] returns its result without a last-frame render. *)
Lemma last_frame_not_attempted_after_failed_probe :
  exists r s',
    convert_video 10 Scripted.clip 30 None Scripted.start_unreadable
    = (Returned r, s') /\
    requested_frames r = 0%Z /\
    last_frame_attempts (log s') = O /\
    last_frame_attempts (log s') <> 1%nat.
Proof.
  eexists _, _. split; [vm_compute; reflexivity|].
  repeat split. discriminate.
Qed.

Lemma convert_video_accounts_for_every_frame_witness :
  exists r s',
    convert_video 10 Scripted.clip 30 None Scripted.start = (Returned r, s') /\
    requested_frames r = (Z.of_nat (length [0; 30; 60; 90]%float) + 1)%Z /\
    (written_frames r + Z.of_nat (length (errors r)))%Z = requested_frames r.
Proof.
  apply (convert_video_accounts_for_every_frame Scripted.host 10 Scripted.clip
           30 None Scripted.start Scripted.clip_dir_made Scripted.clip_probed
           95 [0; 30; 60; 90]%float);
    vm_compute; reflexivity.
Defined.

Lemma convert_video_continues_past_failures_witness :
  exists r s4,
    convert_video 10 Scripted.clip 30 None Scripted.start = (Returned r, s4) /\
    requested_frames r = 5%Z /\ written_frames r = 4%Z /\
    exists k t e,
      errors r = [e] /\ nth_error [0; 30; 60; 90]%float k = Some t /\
      names_frame e (frame_path (video_output_dir Scripted.clip None)
                                (1 + Z.of_nat k) t).
Proof.
  destruct (convert_video_continues_past_failures Scripted.host 10 Scripted.clip
              30 None Scripted.start Scripted.clip_dir_made Scripted.clip_probed
              95 [0; 30; 60; 90]%float eq_refl eq_refl eq_refl)
    as (os & o & s3 & s4 & r & Hos & _ & Ho & Hrun & _ & _ & _ & _ & _ & Hone).
  exists r, s4. split; [exact Hrun|].
  vm_compute in Hos. inversion Hos; subst os s3; clear Hos.
  vm_compute in Ho. inversion Ho; subst o s4; clear Ho.
  apply Hone; reflexivity.
Defined.

(** ** How the QA sampling ends *)

Section SamplingOutcome.

Variable host : Host.

Local Open Scope string_scope.
Local Open Scope Z_scope.

Lemma validate_jpg_returns (image_path : PyPath.Path) (s : Sys host) :
  runs_commands host ->
  exists v s', validate_jpg image_path s = (Returned v, s').
Proof.
  intros Hruns. unfold validate_jpg, bind, run_command, ret.
  destruct (Hruns (validate_jpg_command image_path) (world s))
    as (result & w & ->).
  destruct (negb (returncode result =? 0)); [eexists _, _; reflexivity|].
  destruct (map PyStr.strip _) as [|codec_line [|width_line [|height_line rest]]];
    try (eexists _, _; reflexivity).
  destruct (int_of_str host width_line) as [width|];
    [destruct (int_of_str host height_line) as [height|]|];
    try (eexists _, _; reflexivity).
  destruct (negb _); [eexists _, _; reflexivity|].
  destruct (_ || _); eexists _, _; reflexivity.
Qed.

Lemma check_images_returns (chosen_images : list PyPath.Path) :
  runs_commands host ->
  forall (checked passed : Z) (messages : list string) (s : Sys host),
  exists r s',
    check_images chosen_images checked passed messages s = (Returned r, s').
Proof.
  intros Hruns.
  induction chosen_images as [|image_path chosen_images IH];
    intros checked passed messages s; cbn [check_images].
  - eexists _, _. reflexivity.
  - unfold bind at 1.
    destruct (validate_jpg_returns image_path s Hruns) as ([ok detail] & s1 & ->).
    destruct ok; apply IH.
Qed.

Lemma rng_sample_returns (rng : Rng host) (population : list PyPath.Path)
      (k : Z) (s : Sys host) :
  0 <= k -> k <= Z.of_nat (length population) ->
  exists r s', rng_sample rng population k s = (Returned r, s').
Proof.
  intros H0 Hk. unfold rng_sample.
  replace (k <? 0) with false by (symmetry; apply Z.ltb_ge; exact H0).
  replace (Z.of_nat (length population) <? k) with false
    by (symmetry; apply Z.ltb_ge; exact Hk).
  eexists _, _. reflexivity.
Qed.

Lemma check_folders_returns (sample_images_per_dir : Z)
      (chosen_dirs : list PyPath.Path) :
  runs_commands host -> 0 <= sample_images_per_dir ->
  forall (rng : Rng host) (checked passed : Z) (messages : list string)
         (s : Sys host),
  exists r s',
    check_folders rng chosen_dirs sample_images_per_dir checked passed messages s
    = (Returned r, s').
Proof.
  intros Hruns Hk.
  induction chosen_dirs as [|folder chosen_dirs IH];
    intros rng checked passed messages s; cbn [check_folders].
  - eexists _, _. reflexivity.
  - unfold bind at 1. unfold list_images at 1.
    destruct (PyStr.sorted (glob_jpg host folder (world s)))
      as [|image images]; [apply IH|].
    generalize (image :: images). intros pool.
    unfold bind at 1.
    match goal with
    | |- context [rng_sample ?g ?pop ?k ?st] =>
        destruct (rng_sample_returns g pop k st)
          as ([chosen_images rng'] & s1 & ->); [lia | lia |]
    end.
    unfold bind at 1.
    destruct (check_images_returns chosen_images Hruns checked passed messages s1)
      as ([[checked1 passed1] messages1] & s2 & ->).
    apply IH.
Qed.

(** With sample counts that are not negative, on a host whose commands
    run, the sampling returns. *)
Lemma run_quality_sampling_returns
      (results : list VideoResult) (sample_dirs sample_images_per_dir seed : Z)
      (s : Sys host) :
  runs_commands host -> 0 <= sample_dirs -> 0 <= sample_images_per_dir ->
  exists r s',
    run_quality_sampling results sample_dirs sample_images_per_dir seed s
    = (Returned r, s').
Proof.
  intros Hruns Hd Hi. unfold run_quality_sampling.
  unfold bind at 1. unfold candidate_dirs at 1.
  destruct (map output_dir _) as [|dir dirs]; [eexists _, _; reflexivity|].
  generalize (dir :: dirs). intros pool.
  unfold bind at 1.
  match goal with
  | |- context [rng_sample ?g ?pop ?k ?st] =>
      destruct (rng_sample_returns g pop k st)
        as ([chosen_dirs rng'] & s1 & ->); [lia | lia |]
  end.
  apply check_folders_returns; assumption.
Qed.

(** With a negative [sample_dirs] and a directory to sample from,
    [rng.sample] raises, and nothing catches it. *)
Lemma run_quality_sampling_raises
      (results : list VideoResult) (sample_dirs sample_images_per_dir seed : Z)
      (s : Sys host) :
  sample_dirs < 0 -> samplable results s ->
  exists s',
    run_quality_sampling results sample_dirs sample_images_per_dir seed s
    = (Raised (ValueError "Sample larger than population or is negative"), s').
Proof.
  intros Hneg (res & Hin & Hw & He).
  unfold run_quality_sampling. unfold bind at 1. unfold candidate_dirs at 1.
  destruct (map output_dir
              (filter (fun res => (0 <? written_frames res) &&
                                  path_exists host (output_dir res) (world s))
                      results)) as [|dir dirs] eqn:Hdirs.
  - exfalso.
    assert (Hres : In (output_dir res)
                      (map output_dir
                         (filter (fun res => (0 <? written_frames res) &&
                                             path_exists host (output_dir res)
                                                         (world s))
                                 results))).
    { apply in_map, filter_In. split; [exact Hin|].
      rewrite He, andb_true_r. apply Z.ltb_lt, Hw. }
    rewrite Hdirs in Hres. exact Hres.
  - generalize (dir :: dirs). intros pool.
    unfold bind, rng_sample.
    match goal with
    | |- context [(?a <? 0) || ?b] =>
        replace (a <? 0) with true by (symmetry; apply Z.ltb_lt; lia)
    end.
    cbn [orb]. eexists. reflexivity.
Qed.

End SamplingOutcome.

(** ** The exit code *)

Section ExitCode.

Variable host : Host.

Local Open Scope Z_scope.

(** What every collected result satisfies: it is the early return, or it
    accounts for each of its [requested_frames >= 1] attempts. *)
Lemma collected_shape (r : VideoResult) :
  collected host r ->
  (requested_frames r = 0 /\ written_frames r = 0 /\ errors r <> []) \/
  (1 <= requested_frames r /\ 0 <= written_frames r /\
   written_frames r + Z.of_nat (length (errors r)) = requested_frames r).
Proof.
  intros (fuel & v & interval & root & s & s' & Hr).
  destruct (convert_video_returned _ _ _ _ _ _ _ _ Hr)
    as (s1 & Hdir & [(exc & _ & ->) | (duration & timestamps & s2 & Hp & Hb)]).
  - left. simpl. repeat split. discriminate.
  - right.
    destruct (convert_video_success _ _ _ _ _ _ _ _ _ _ Hdir Hp Hb)
      as (os & o & s3 & s4 & _ & _ & Hlen & _ & Hrun).
    rewrite Hrun in Hr. inversion Hr; subst; simpl.
    rewrite written_plus_errors, length_app, Hlen. simpl.
    pose proof (written_count_nonneg (os ++ [o])). lia.
Qed.

Lemma collected_failed (r : VideoResult) :
  collected host r ->
  ((written_frames r =? 0) || negb (is_nil (errors r)) = false <-> clean r) /\
  (written_frames r =? 0) || negb (is_nil (errors r)) = with_issues r.
Proof.
  intros H. apply collected_shape in H. unfold clean, with_issues.
  destruct (errors r) as [|e es] eqn:He; simpl length in H; simpl is_nil;
    simpl negb; rewrite ?orb_false_r, ?orb_true_r, ?orb_true_l.
  - destruct H as [(_ & _ & Hne) | (H1 & H0 & Hsum)]; [congruence|].
    split.
    + rewrite Z.eqb_neq. split; [intros _; split; [reflexivity | lia] | lia].
    + destruct (Z.ltb_spec (written_frames r) (requested_frames r)); [lia|].
      reflexivity.
  - split; [|reflexivity]. split; [discriminate | intros [Hf _]; discriminate].
Qed.

(** C5: for the results collected from [convert_video], the exit code is 0
    exactly when every video has no error and all its frames, and 1
    otherwise; the videos that the code counts as failed are the videos
    with issues (fewer frames than requested, or an error, or no frame).
    This is the code that [main] returns whenever it returns one, and it
    does return one when the sample counts are not negative and the
    commands of the QA sampling run.  With a negative [sample_dirs] and a
    directory to sample from, [main] raises instead, whatever the videos
    were like. *)
Theorem main_exit_code_unless_sampling_raises (results : list VideoResult) :
  Forall (collected host) results ->
  (exit_code results = 0 <-> Forall clean results) /\
  (exit_code results = 1 <-> ~ Forall clean results) /\
  failed_videos results = filter with_issues results /\
  (forall (sample_dirs sample_images seed code : Z) (s s' : Sys host),
      main_summary results sample_dirs sample_images seed s
      = (Returned code, s') ->
      code = exit_code results) /\
  (forall (sample_dirs sample_images seed : Z) (s : Sys host),
      runs_commands host -> 0 <= sample_dirs -> 0 <= sample_images ->
      exists s',
        main_summary results sample_dirs sample_images seed s
        = (Returned (exit_code results), s')) /\
  (forall (sample_dirs sample_images seed : Z) (s : Sys host),
      sample_dirs < 0 -> samplable results s ->
      exists s',
        main_summary results sample_dirs sample_images seed s
        = (Raised (ValueError "Sample larger than population or is negative"),
           s')).
Proof.
  intros Hall.
  assert (Hfailed : failed_videos results = filter with_issues results).
  { unfold failed_videos. apply filter_ext_in. intros r Hr.
    rewrite Forall_forall in Hall. apply (collected_failed r (Hall r Hr)). }
  assert (Hzero : exit_code results = 0 <-> Forall clean results).
  { unfold exit_code, failed_videos.
    induction Hall as [|r results Hr Hall IH]; simpl.
    - split; [constructor | reflexivity].
    - destruct (collected_failed r Hr) as [Hclean _].
      destruct ((written_frames r =? 0) || negb (is_nil (errors r))); simpl.
      + split; [discriminate|]. intros H. inversion H; subst.
        apply Hclean in H2. discriminate.
      + rewrite IH; [|]. split.
        * intros H. constructor; [apply Hclean; reflexivity | exact H].
        * intros H. inversion H; assumption.
        * unfold failed_videos. apply filter_ext_in. intros r' Hr'.
          rewrite Forall_forall in Hall.
          apply (collected_failed r' (Hall r' Hr')). }
  split; [exact Hzero|]. split; [|split; [exact Hfailed|split; [|split]]].
  - rewrite <- Hzero. unfold exit_code.
    destruct (is_nil (failed_videos results)); split; intros H;
      try discriminate; try reflexivity; exfalso; apply H; reflexivity.
  - intros sample_dirs sample_images seed code s s'.
    unfold main_summary, bind, ret, exit_code.
    destruct (run_quality_sampling results sample_dirs sample_images seed s)
      as [[]]; intros H; inversion H; reflexivity.
  - intros sample_dirs sample_images seed s Hruns Hd Hi.
    destruct (run_quality_sampling_returns host results sample_dirs
                sample_images seed s Hruns Hd Hi) as (r & s' & Hq).
    exists s'. unfold main_summary, bind, ret, exit_code. rewrite Hq.
    reflexivity.
  - intros sample_dirs sample_images seed s Hneg Hpool.
    destruct (run_quality_sampling_raises host results sample_dirs
                sample_images seed s Hneg Hpool) as (s' & Hq).
    exists s'. unfold main_summary, bind. rewrite Hq. reflexivity.
Qed.

End ExitCode.

(** One clean video: the exit code of the results is 0, and [main]
    returns it with three directories to sample, and raises with
    [--sample-dirs -1]. *)
Lemma main_exit_code_unless_sampling_raises_witness :
  Forall clean [Scripted.clean_result] /\
  exit_code [Scripted.clean_result] = 0%Z /\
  (exists s',
      main_summary [Scripted.clean_result] 3 3 42 Scripted.start
      = (Returned 0%Z, s')) /\
  exists s',
    main_summary [Scripted.clean_result] (-1) 3 42 Scripted.start
    = (Raised (ValueError "Sample larger than population or is negative"), s').
Proof.
  destruct (main_exit_code_unless_sampling_raises Scripted.host
              [Scripted.clean_result])
    as (Hzero & _ & _ & _ & Hreturns & Hraises).
  - constructor; [|constructor].
    exists 10%nat, Scripted.clip, 50%float, None, Scripted.start,
      (snd (convert_video 10 Scripted.clip 50 None Scripted.start)).
    vm_compute. reflexivity.
  - assert (Hclean : Forall clean [Scripted.clean_result])
      by (repeat constructor).
    split; [exact Hclean|]. split; [apply Hzero, Hclean|]. split.
    { apply (Hreturns 3%Z 3%Z 42%Z Scripted.start); [|discriminate|discriminate].
      intros command w. eexists _, _. reflexivity. }
    apply Hraises; [reflexivity|].
    exists Scripted.clean_result. split; [left; reflexivity|].
    split; reflexivity.
Defined.

(** ** The QA sampler *)

Section QASampler.

Variable host : Host.

Local Open Scope Z_scope.

(** C10: when no result has a written frame and an existing output
    directory, [run_quality_sampling] returns 0 checked, 0 passed and the
    one informational message, and leaves the system as it found it: no
    sample is drawn and no image is validated. *)
Theorem run_quality_sampling_empty_pool
        (results : list VideoResult) (sample_dirs sample_images seed : Z)
        (s : Sys host) :
  (forall res, In res results -> 0 < written_frames res ->
               path_exists host (output_dir res) (world s) = false) ->
  run_quality_sampling results sample_dirs sample_images seed s
  = (Returned (0, 0, ["No converted directories available for sampling."%string]),
     s).
Proof.
  intros Hnone. unfold run_quality_sampling, bind, candidate_dirs.
  assert (Hempty : filter (fun res => (0 <? written_frames res)
                                      && path_exists host (output_dir res) (world s))
                          results = []).
  { induction results as [|res results IH]; simpl; [reflexivity|].
    destruct (Z.ltb_spec 0 (written_frames res)) as [Hpos|Hle]; simpl.
    - rewrite (Hnone res (or_introl eq_refl) Hpos).
      apply IH. intros r Hr. apply Hnone. right. exact Hr.
    - apply IH. intros r Hr. apply Hnone. right. exact Hr. }
  rewrite Hempty. reflexivity.
Qed.

Lemma same_run_ret (A : Type) (a : A) (s1 s2 : Sys host) :
  same_run (ret a) s1 s2.
Proof.
  split; [reflexivity|]. exists []. simpl. rewrite !app_nil_r. split; reflexivity.
Qed.

Lemma same_run_bind (A B : Type) (c : M host A) (k : A -> M host B)
      (s1 s2 : Sys host) :
  same_run c s1 s2 ->
  (forall a t1 t2, c s1 = (Returned a, t1) -> c s2 = (Returned a, t2) ->
                   same_run (k a) t1 t2) ->
  same_run (bind c k) s1 s2.
Proof.
  unfold same_run, bind. intros [Hout (evs & H1 & H2)] Hk.
  destruct (c s1) as [o1 t1], (c s2) as [o2 t2]. simpl in *. subst o2.
  destruct o1 as [a|e|]; simpl.
  - destruct (Hk a t1 t2 eq_refl eq_refl) as [Hout' (evs' & H1' & H2')].
    split; [exact Hout'|]. exists (evs ++ evs')%list.
    rewrite H1', H2', H1, H2, !app_assoc. split; reflexivity.
  - split; [reflexivity|]. exists evs. split; assumption.
  - split; [reflexivity|]. exists evs. split; assumption.
Qed.

Lemma same_run_rng_sample (rng : Rng host) (population : list PyPath.Path)
      (k : Z) (s1 s2 : Sys host) :
  same_run (rng_sample rng population k) s1 s2.
Proof.
  unfold same_run, rng_sample.
  destruct ((k <? 0) || (Z.of_nat (length population) <? k)); simpl;
    (split; [reflexivity | eexists; split; reflexivity]).
Qed.

Section Determinism.

Variable results : list VideoResult.

(** The generator picks among what it is given. *)
Hypothesis choose_incl :
  forall rng population k x,
    In x (fst (choose host rng population k)) -> In x population.

(** An output directory holds the same images whenever it is listed, in
    whatever order it yields them. *)
Hypothesis listing_fixed :
  forall res w w', In res results ->
                   Permutation (glob_jpg host (output_dir res) w)
                               (glob_jpg host (output_dir res) w').

(** What the collaborator says of an image depends on its path alone. *)
Hypothesis validation_fixed :
  forall image_path w w',
    fst (subprocess_run host (validate_jpg_command image_path) w)
    = fst (subprocess_run host (validate_jpg_command image_path) w').

Lemma same_run_validate_jpg (image_path : PyPath.Path) (s1 s2 : Sys host) :
  same_run (validate_jpg image_path) s1 s2.
Proof.
  unfold validate_jpg. apply same_run_bind.
  - unfold same_run, run_command.
    pose proof (validation_fixed image_path (world s1) (world s2)) as Hfix.
    destruct (subprocess_run host _ (world s1)) as [r1 w1],
             (subprocess_run host _ (world s2)) as [r2 w2].
    simpl in Hfix. subst r2.
    destruct r1; simpl; (split; [reflexivity | eexists; split; reflexivity]).
  - intros result t1 t2 _ _.
    repeat match goal with
           | |- same_run (ret _) _ _ => apply same_run_ret
           | |- same_run (if ?b then _ else _) _ _ => destruct b
           | |- same_run (match ?x with _ => _ end) _ _ => destruct x
           end.
Qed.

Lemma same_run_check_images (chosen_images : list PyPath.Path) :
  forall (checked passed : Z) (messages : list string) (s1 s2 : Sys host),
    same_run (check_images chosen_images checked passed messages) s1 s2.
Proof.
  induction chosen_images as [|image_path chosen_images IH];
    intros checked passed messages s1 s2; simpl.
  - apply same_run_ret.
  - apply same_run_bind; [apply same_run_validate_jpg|].
    intros [[|] detail] t1 t2 _ _; apply IH.
Qed.

Lemma same_run_check_folders (chosen_dirs : list PyPath.Path) :
  (forall folder, In folder chosen_dirs -> In folder (map output_dir results)) ->
  forall (rng : Rng host) (sample_images_per_dir checked passed : Z)
         (messages : list string) (s1 s2 : Sys host),
    same_run (check_folders rng chosen_dirs sample_images_per_dir
                            checked passed messages) s1 s2.
Proof.
  induction chosen_dirs as [|folder chosen_dirs IH];
    intros Hin rng sample_images_per_dir checked passed messages s1 s2; simpl.
  - apply same_run_ret.
  - assert (IH' := IH (fun f Hf => Hin f (or_intror Hf))).
    apply same_run_bind.
    + unfold same_run, list_images. simpl.
      destruct (proj1 (in_map_iff _ _ _) (Hin folder (or_introl eq_refl)))
        as (res & <- & Hres).
      rewrite (PyStrFacts.sorted_Permutation _ _
                 (listing_fixed res (world s1) (world s2) Hres)).
      split; [reflexivity|]. exists []. rewrite !app_nil_r. split; reflexivity.
    + intros images t1 t2 _ _. destruct images as [|image images].
      * apply IH'.
      * apply same_run_bind; [apply same_run_rng_sample|].
        intros [chosen_images rng'] u1 u2 _ _.
        apply same_run_bind; [apply same_run_check_images|].
        intros [[checked' passed'] messages'] v1 v2 _ _. apply IH'.
Qed.

Lemma same_run_quality_sampling (sample_dirs sample_images seed : Z)
      (s1 s2 : Sys host) :
  (forall res, In res results ->
               path_exists host (output_dir res) (world s1)
               = path_exists host (output_dir res) (world s2)) ->
  same_run (run_quality_sampling results sample_dirs sample_images seed) s1 s2.
Proof.
  intros Hexists. unfold run_quality_sampling.
  assert (Hpool : filter (fun res => (0 <? written_frames res)
                                     && path_exists host (output_dir res) (world s1))
                         results
                  = filter (fun res => (0 <? written_frames res)
                                       && path_exists host (output_dir res) (world s2))
                           results).
  { apply filter_ext_in. intros res Hres.
    rewrite (Hexists res Hres). reflexivity. }
  apply same_run_bind.
  - unfold same_run, candidate_dirs. simpl. rewrite Hpool.
    split; [reflexivity|]. exists []. rewrite !app_nil_r. split; reflexivity.
  - intros dirs t1 t2 H1 _. unfold candidate_dirs in H1.
    inversion H1; subst; clear H1.
    match goal with |- same_run (match ?l with _ => _ end) _ _ =>
      remember l as dirs eqn:Hdirs end.
    destruct dirs as [|dir dirs]; [apply same_run_ret|].
    apply same_run_bind; [apply same_run_rng_sample|].
    intros [chosen_dirs rng'] u1 u2 Hsample _.
    apply same_run_check_folders. intros folder Hfolder.
    unfold rng_sample in Hsample.
    destruct ((_ <? 0) || _) in Hsample; [discriminate|].
    inversion Hsample as [[Hchoose Hu]]; clear Hsample.
    match type of Hchoose with
    | choose host ?g ?p ?k = _ =>
        pose proof (choose_incl g p k folder) as Hincl
    end.
    rewrite Hchoose in Hincl. specialize (Hincl Hfolder).
    rewrite Hdirs in Hincl.
    apply in_map_iff in Hincl. destruct Hincl as (res & <- & Hres).
    apply in_map. apply filter_In in Hres. apply Hres.
Qed.

End Determinism.

(** C8: two runs of the QA sampler with the same seed, sample sizes and
    results, on the same candidate pool (the same output directories
    exist, each holds the same images whenever listed, in whatever order,
    and the collaborator's verdict on an image depends on its path alone),
    return the same counts and messages and do the same to the outside,
    sample for sample and command for command. *)
Theorem run_quality_sampling_deterministic
        (results : list VideoResult) (sample_dirs sample_images seed : Z)
        (s1 s2 : Sys host) :
  (forall rng population k x,
      In x (fst (choose host rng population k)) -> In x population) ->
  (forall res, In res results ->
               path_exists host (output_dir res) (world s1)
               = path_exists host (output_dir res) (world s2)) ->
  (forall res w w', In res results ->
                    Permutation (glob_jpg host (output_dir res) w)
                                (glob_jpg host (output_dir res) w')) ->
  (forall image_path w w',
      fst (subprocess_run host (validate_jpg_command image_path) w)
      = fst (subprocess_run host (validate_jpg_command image_path) w')) ->
  fst (run_quality_sampling results sample_dirs sample_images seed s1)
  = fst (run_quality_sampling results sample_dirs sample_images seed s2) /\
  exists evs,
    log (snd (run_quality_sampling results sample_dirs sample_images seed s1))
    = (log s1 ++ evs)%list /\
    log (snd (run_quality_sampling results sample_dirs sample_images seed s2))
    = (log s2 ++ evs)%list.
Proof.
  intros Hchoose Hexists Hlisting Hvalidate.
  apply (same_run_quality_sampling results Hchoose Hlisting Hvalidate
           sample_dirs sample_images seed s1 s2 Hexists).
Qed.

End QASampler.

Lemma run_quality_sampling_empty_pool_witness :
  run_quality_sampling
    [Build_VideoResult Scripted.clip (video_output_dir Scripted.clip None)
       0 0 ["moov atom not found"%string]] 3 3 42 Scripted.start
  = (Returned (0, 0, ["No converted directories available for sampling."%string])%Z,
     Scripted.start).
Proof.
  apply run_quality_sampling_empty_pool.
  intros res [<-|[]]. simpl. lia.
Defined.

Lemma run_quality_sampling_deterministic_witness :
  fst (run_quality_sampling [Scripted.clip_result] 3 3 42 Scripted.start)
  = fst (run_quality_sampling [Scripted.clip_result] 3 3 42
           Scripted.later) /\
  exists evs,
    log (snd (run_quality_sampling [Scripted.clip_result] 3 3 42 Scripted.start))
    = (log Scripted.start ++ evs)%list /\
    log (snd (run_quality_sampling [Scripted.clip_result] 3 3 42
                Scripted.later))
    = (log Scripted.later ++ evs)%list.
Proof.
  apply (run_quality_sampling_deterministic Scripted.host
           [Scripted.clip_result] 3 3 42 Scripted.start
           Scripted.later).
  - intros rng population k x Hx. simpl in Hx.
    rewrite <- (firstn_skipn k population). apply in_or_app. left. exact Hx.
  - reflexivity.
  - reflexivity.
  - reflexivity.
Defined.
